(** * Gravitational N-body simulation (corpos.py): model and verification

    The development embeds the physics core of [src/3corpos/corpos.py]
    (the [Body] class, [compute_forces], [update_positions]) and the state
    handling of [SimulationApp] (presets, the add-body dialog, the trail
    deques and [run_simulation]), and proves the properties of the
    specification about them.

    Numbers are IEEE binary64 values, as in Python; the model keeps apart
    Python's own [float] and [numpy.float64], because they differ in how a
    division by zero and an overflowing power behave. The power [**] is
    computed by the C library's [pow], which is a parameter of the model. *)

From Stdlib Require Import PrimFloat FloatAxioms SpecFloat ZArith.
From stdpp Require Import base list strings.

Set Warnings "-inexact-float".

(** ** Exceptions, results and the state-and-exception monad *)

Inductive exn : Set :=
  | ZeroDivisionError
  | OverflowError
  | IndexError
  | ValueError
  | KeyError.

(** The value of a Python expression: a value, or a raised exception. *)
Inductive result (A : Type) : Type :=
  | Ok (a : A)
  | Err (e : exn).
Arguments Ok {A} a.
Arguments Err {A} e.

Definition rbind {A B : Type} (r : result A) (k : A -> result B) : result B :=
  match r with
  | Ok a => k a
  | Err e => Err e
  end.

Notation "'let?' x ':=' r 'in' k" := (rbind r (fun x => k))
  (at level 10, x name, r at level 100, k at level 200).
Notation "'let?' ' p ':=' r 'in' k" := (rbind r (fun p => k))
  (at level 10, p strict pattern, r at level 100, k at level 200).

(** A statement run on a mutable store [S]: it completes with a value, or
    raises; in both cases the store holds whatever was written so far. *)
Inductive outcome (S A : Type) : Type :=
  | Done (a : A) (s : S)
  | Raised (e : exn) (s : S).
Arguments Done {S A} a s.
Arguments Raised {S A} e s.

Definition M (S A : Type) : Type := S -> outcome S A.

Definition state_of {S A : Type} (o : outcome S A) : S :=
  match o with
  | Done _ s => s
  | Raised _ s => s
  end.

Definition ret {S A : Type} (a : A) : M S A := fun s => Done a s.

Definition bind {S A B : Type} (m : M S A) (k : A -> M S B) : M S B :=
  fun s =>
    match m s with
    | Done a s' => k a s'
    | Raised e s' => Raised e s'
    end.

Definition lift {S A : Type} (r : result A) : M S A :=
  fun s =>
    match r with
    | Ok a => Done a s
    | Err e => Raised e s
    end.

Definition gets {S A : Type} (f : S -> A) : M S A := fun s => Done (f s) s.

Definition modify {S : Type} (f : S -> S) : M S unit := fun s => Done tt (f s).

(** [try: m except Exception as e: h e] *)
Definition try_except {S A : Type} (m : M S A) (h : exn -> M S A) : M S A :=
  fun s =>
    match m s with
    | Done a s' => Done a s'
    | Raised e s' => h e s'
    end.

Notation "'let!' x ':=' m 'in' k" := (bind m (fun x => k))
  (at level 10, x name, m at level 100, k at level 200).
Notation "'let!' ' p ':=' m 'in' k" := (bind m (fun p => k))
  (at level 10, p strict pattern, m at level 100, k at level 200).
Notation "m1 ';;;' m2" := (bind m1 (fun _ => m2))
  (at level 100, m2 at level 200, right associativity).

(** [for a in l: body a] *)
Fixpoint for_each {S A : Type} (l : list A) (body : A -> M S unit) : M S unit :=
  match l with
  | [] => ret tt
  | a :: l' => body a ;;; for_each l' body
  end.

(** [range(lo, hi)] *)
Definition range (lo hi : nat) : list nat := seq lo (hi - lo).

(** ** Numbers

    A Python [float] (integer literals of the source are embedded as the
    float of the same value: they are 0, 2 and 86400 and the arithmetic on
    them is exact; the square of the integer 86400, exact in Python, is
    here what [pow] returns for 86400.0) or a [numpy.float64] scalar, which
    [np.sqrt] returns and which wins in mixed arithmetic. Both carry a
    binary64 value. *)

Inductive num : Set :=
  | PyFloat (v : float)
  | NpFloat (v : float).

Definition val (a : num) : float :=
  match a with
  | PyFloat v => v
  | NpFloat v => v
  end.

Definition is_np (a : num) : bool :=
  match a with
  | PyFloat _ => false
  | NpFloat _ => true
  end.

Definition binop (op : float -> float -> float) (a b : num) : num :=
  match a, b with
  | PyFloat u, PyFloat v => PyFloat (op u v)
  | _, _ => NpFloat (op (val a) (val b))
  end.

Definition nadd : num -> num -> num := binop PrimFloat.add.
Definition nsub : num -> num -> num := binop PrimFloat.sub.
Definition nmul : num -> num -> num := binop PrimFloat.mul.

(** [a / b]: Python raises on a zero divisor; numpy returns inf or nan
    (with a warning). *)
Definition ndiv (a b : num) : result num :=
  match a, b with
  | PyFloat u, PyFloat v =>
      if PrimFloat.is_zero v then Err ZeroDivisionError
      else Ok (PyFloat (PrimFloat.div u v))
  | _, _ => Ok (NpFloat (PrimFloat.div (val a) (val b)))
  end.

(** What [**] calls and neither the source nor Python defines: [pow] of the
    C library. It gives a value and may report a range error (errno set to
    ERANGE), the only error [pow] has on a finite positive base. How it
    rounds is the library's own business: [pow(v, 2.0)] need not be the
    correctly rounded product [v * v]. *)
Class Libm : Type := {
  libm_pow : float -> float -> float * bool
}.

(** [v ** 2] on a Python float ([float_pow] of CPython): nan, the
    infinities, zero and 1 are answered without the library; otherwise
    [pow] is called on the absolute value (the exponent is even), and
    OverflowError is raised when the result is infinite, or when [pow]
    reports a range error on a result that is not zero. *)
Definition float_pow2 {L : Libm} (v : float) : result float :=
  if PrimFloat.is_nan v then Ok v
  else if PrimFloat.is_infinity v then Ok (PrimFloat.abs v)
  else if PrimFloat.is_zero v then Ok 0%float
  else
    let iv := if PrimFloat.ltb v 0 then PrimFloat.opp v else v in
    if PrimFloat.eqb iv 1 then Ok 1%float
    else
      let '(ix, range_error) := libm_pow iv 2 in
      let erange :=
        if (range_error : bool) then negb (PrimFloat.is_zero ix)
        else PrimFloat.is_infinity ix in
      if erange then Err OverflowError else Ok ix.

(** [a ** 2]: a Python float as above; a numpy scalar is handed to [pow] as
    it is, and numpy raises nothing (it warns). *)
Definition npow2 {L : Libm} (a : num) : result num :=
  match a with
  | PyFloat v => let? s := float_pow2 v in Ok (PyFloat s)
  | NpFloat v => Ok (NpFloat (libm_pow v 2).1)
  end.

Definition np_sqrt (a : num) : num := NpFloat (PrimFloat.sqrt (val a)).

Definition nabs (a : num) : float := PrimFloat.abs (val a).

(** ** Constants *)

Definition G : num := PyFloat 6.67430e-11.
Definition SCALE_FACTOR : num := PyFloat 1e9.
Definition DT : num := PyFloat 86400.

(** ** class Body *)

Module Body.
Record t : Set := mk {
  mass : num;
  x : num;
  y : num;
  vx : num;
  vy : num;
  color : string;
  prev_x : num;
  prev_y : num;
  ax : num;
  ay : num
}.

Definition set_x (v : num) (b : t) : t :=
  mk (mass b) v (y b) (vx b) (vy b) (color b) (prev_x b) (prev_y b) (ax b) (ay b).
Definition set_y (v : num) (b : t) : t :=
  mk (mass b) (x b) v (vx b) (vy b) (color b) (prev_x b) (prev_y b) (ax b) (ay b).
Definition set_prev_x (v : num) (b : t) : t :=
  mk (mass b) (x b) (y b) (vx b) (vy b) (color b) v (prev_y b) (ax b) (ay b).
Definition set_prev_y (v : num) (b : t) : t :=
  mk (mass b) (x b) (y b) (vx b) (vy b) (color b) (prev_x b) v (ax b) (ay b).
Definition set_ax (v : num) (b : t) : t :=
  mk (mass b) (x b) (y b) (vx b) (vy b) (color b) (prev_x b) (prev_y b) v (ay b).
Definition set_ay (v : num) (b : t) : t :=
  mk (mass b) (x b) (y b) (vx b) (vy b) (color b) (prev_x b) (prev_y b) (ax b) v.

(** [Body.__init__] *)
Definition init (mass x y vx vy : num) (color : string) : t :=
  mk mass x y vx vy color
     (nsub x (nmul vx DT))
     (nsub y (nmul vy DT))
     (PyFloat 0) (PyFloat 0).
End Body.

(** ** The list of bodies as a mutable store *)

(** [bodies[i]] read *)
Definition body_at (i : nat) : M (list Body.t) Body.t :=
  fun bodies =>
    match bodies !! i with
    | Some b => Done b bodies
    | None => Raised IndexError bodies
    end.

(** A statement that reads the object [bodies[i]], computes and writes
    attributes of that object: [bodies[i].ax += ...] and the like. *)
Definition update_at (i : nat) (f : Body.t -> result Body.t) : M (list Body.t) unit :=
  fun bodies =>
    match bodies !! i with
    | Some b =>
        match f b with
        | Ok b' => Done tt (<[i:=b']> bodies)
        | Err e => Raised e bodies
        end
    | None => Raised IndexError bodies
    end.

(** ** compute_forces *)

(** Lines 34-41: the force of the pair, from the positions and masses. *)
Definition pair_force {L : Libm} (bi bj : Body.t) : result (num * num) :=
  let dx := nsub (Body.x bj) (Body.x bi) in
  let dy := nsub (Body.y bj) (Body.y bi) in
  let? dx2 := npow2 dx in
  let? dy2 := npow2 dy in
  let r_sq := nadd dx2 dy2 in
  let r := nadd (np_sqrt r_sq) (PyFloat 1e-10) in
  let? F := ndiv (nmul (nmul G (Body.mass bi)) (Body.mass bj)) r_sq in
  let? fx := ndiv (nmul F dx) r in
  let? fy := ndiv (nmul F dy) r in
  Ok (fx, fy).

(** Lines 43-46, one statement each: [b.ax += f / b.mass] and so on. *)
Definition add_ax (f : num) (b : Body.t) : result Body.t :=
  let? a := ndiv f (Body.mass b) in Ok (Body.set_ax (nadd (Body.ax b) a) b).
Definition add_ay (f : num) (b : Body.t) : result Body.t :=
  let? a := ndiv f (Body.mass b) in Ok (Body.set_ay (nadd (Body.ay b) a) b).
Definition sub_ax (f : num) (b : Body.t) : result Body.t :=
  let? a := ndiv f (Body.mass b) in Ok (Body.set_ax (nsub (Body.ax b) a) b).
Definition sub_ay (f : num) (b : Body.t) : result Body.t :=
  let? a := ndiv f (Body.mass b) in Ok (Body.set_ay (nsub (Body.ay b) a) b).

(** Lines 34-46: the body of the inner loop. *)
Definition interact {L : Libm} (i j : nat) : M (list Body.t) unit :=
  let! bj := body_at j in
  let! bi := body_at i in
  let! '(fx, fy) := lift (pair_force bi bj) in
  update_at i (add_ax fx) ;;;
  update_at i (add_ay fy) ;;;
  update_at j (sub_ax fx) ;;;
  update_at j (sub_ay fy).

(** Lines 29-30: the body of the first loop. *)
Definition clear_acceleration (i : nat) : M (list Body.t) unit :=
  update_at i (fun b => Ok (Body.set_ax (PyFloat 0) b)) ;;;
  update_at i (fun b => Ok (Body.set_ay (PyFloat 0) b)).

Definition compute_forces {L : Libm} : M (list Body.t) unit :=
  let! n := gets length in
  for_each (range 0 n) clear_acceleration ;;;
  for_each (range 0 n) (fun i =>
    for_each (range (i + 1) n) (fun j => interact i j)).

(** ** update_positions *)

(** Lines 50-53: the body of the loop, on the body [b]. *)
Definition advance {L : Libm} (dt : num) (b : Body.t) : result Body.t :=
  let? dt2 := npow2 dt in
  let new_x :=
    nadd (nsub (nmul (PyFloat 2) (Body.x b)) (Body.prev_x b)) (nmul (Body.ax b) dt2) in
  let? dt2' := npow2 dt in
  let new_y :=
    nadd (nsub (nmul (PyFloat 2) (Body.y b)) (Body.prev_y b)) (nmul (Body.ay b) dt2') in
  let b1 := Body.set_x new_x (Body.set_prev_x (Body.x b) b) in
  let b2 := Body.set_y new_y (Body.set_prev_y (Body.y b1) b1) in
  Ok b2.

Definition update_positions {L : Libm} (dt : num) : M (list Body.t) unit :=
  let! n := gets length in
  for_each (range 0 n) (fun k => update_at k (advance dt)).

(** ** collections.deque(maxlen=...) *)

Definition sample : Set := (num * num)%type.

Module deque.
Record t : Set := mk {
  items : list sample;
  maxlen : nat
}.

(** [deque(maxlen=n)] *)
Definition new (n : nat) : t := mk [] n.

Definition len (d : t) : nat := length (items d).

(** [d.append(s)]: the item is added on the right and, when the length
    then exceeds [maxlen], one item is removed on the left. *)
Definition append (s : sample) (d : t) : t :=
  let l := items d ++ [s] in
  mk (if maxlen d <? length l then tail l else l) (maxlen d).

(** [d.popleft()] *)
Definition popleft (d : t) : result (sample * t) :=
  match items d with
  | [] => Err IndexError
  | s :: l => Ok (s, mk l (maxlen d))
  end.
End deque.

(** ** class SimulationApp: the fields the simulation reads and writes *)

Module App.
Record t : Set := mk {
  bodies : list Body.t;
  is_running : bool;
  trail_length : nat;
  dt : num;
  trails : list deque.t;
  preset_var : string
}.

Definition set_bodies (v : list Body.t) (self : t) : t :=
  mk v (is_running self) (trail_length self) (dt self) (trails self) (preset_var self).
Definition set_is_running (v : bool) (self : t) : t :=
  mk (bodies self) v (trail_length self) (dt self) (trails self) (preset_var self).
Definition set_trail_length (v : nat) (self : t) : t :=
  mk (bodies self) (is_running self) v (dt self) (trails self) (preset_var self).
Definition set_dt (v : num) (self : t) : t :=
  mk (bodies self) (is_running self) (trail_length self) v (trails self) (preset_var self).
Definition set_trails (v : list deque.t) (self : t) : t :=
  mk (bodies self) (is_running self) (trail_length self) (dt self) v (preset_var self).
Definition set_preset_var (v : string) (self : t) : t :=
  mk (bodies self) (is_running self) (trail_length self) (dt self) (trails self) v.
End App.

(** The texts of the six entries of the add-body dialog. *)
Module Entries.
Record t : Set := mk {
  massa : string;
  posicao_x : string;
  posicao_y : string;
  velocidade_x : string;
  velocidade_y : string;
  cor : string
}.
End Entries.

(** What the source file calls and does not define: Python's [float] on the
    text of an entry (it raises [ValueError] on a text that is no number),
    Python's [int] on the text the trail slider hands to its command (it
    raises [ValueError] on a text that is not the text of an integer, that
    of a real number such as 50.0 included), and the drawing done by
    [update_plot] through matplotlib, which reads the bodies and trails,
    writes none of the fields above and may raise. *)
Record Env : Type := {
  py_float : string -> result num;
  py_int : string -> result nat;
  draw : App.t -> result unit
}.

(** A statement on [self.bodies], the list object being mutated in place. *)
Definition on_bodies {A : Type} (m : M (list Body.t) A) : M App.t A :=
  fun self =>
    match m (App.bodies self) with
    | Done a bodies' => Done a (App.set_bodies bodies' self)
    | Raised e bodies' => Raised e (App.set_bodies bodies' self)
    end.

Definition update_plot (E : Env) : M App.t unit :=
  let! self := gets id in
  lift (draw E self).

(** [load_presets]: the dictionary [self.presets], in insertion order. *)
Definition presets : list (string * list Body.t) :=
  [ ("Sistema Solar",
     [ Body.init (PyFloat 1.9885e30) (PyFloat 0) (PyFloat 0) (PyFloat 0) (PyFloat 0) "yellow";
       Body.init (PyFloat 3.3011e23) (PyFloat 57.9e9) (PyFloat 0) (PyFloat 0) (PyFloat 47.36e3) "gray";
       Body.init (PyFloat 4.8675e24) (PyFloat 108.2e9) (PyFloat 0) (PyFloat 0) (PyFloat 35.02e3) "orange";
       Body.init (PyFloat 5.9724e24) (PyFloat 149.6e9) (PyFloat 0) (PyFloat 0) (PyFloat 29.78e3) "blue" ]);
    ("Estrela Binária",
     [ Body.init (PyFloat 1e30) (PyFloat (-1e10)) (PyFloat 0) (PyFloat 0) (PyFloat 2e4) "red";
       Body.init (PyFloat 1e30) (PyFloat 1e10) (PyFloat 0) (PyFloat 0) (PyFloat (-2e4)) "blue" ]);
    ("Órbita Lunar",
     [ Body.init (PyFloat 5.9724e24) (PyFloat 0) (PyFloat 0) (PyFloat 0) (PyFloat 0) "blue";
       Body.init (PyFloat 7.342e22) (PyFloat 384.4e6) (PyFloat 0) (PyFloat 0) (PyFloat 1.022e3) "gray" ]) ].

(** [d[key]] on a dictionary *)
Fixpoint dict_get {V : Type} (d : list (string * V)) (key : string) : result V :=
  match d with
  | [] => Err KeyError
  | (k, v) :: d' => if String.eqb k key then Ok v else dict_get d' key
  end.

Definition load_selected_preset (E : Env) : M App.t unit :=
  let! preset_name := gets App.preset_var in
  let! preset_name :=
    (if String.eqb preset_name "" then
       modify (App.set_preset_var "Sistema Solar") ;;; ret "Sistema Solar"
     else ret preset_name) in
  let! preset := lift (dict_get presets preset_name) in
  modify (App.set_bodies
    (map (fun b => Body.init (Body.mass b) (Body.x b) (Body.y b)
                             (Body.vx b) (Body.vy b) (Body.color b)) preset)) ;;;
  modify (fun self => App.set_trails
    (map (fun _ => deque.new (App.trail_length self)) (App.bodies self)) self) ;;;
  update_plot E.

(** Lines 167-171: the five conversions, in the order of the source. *)
Definition parse_entries (E : Env) (entries : Entries.t)
  : result (num * num * num * num * num) :=
  let? mass := py_float E (Entries.massa entries) in
  let? x := py_float E (Entries.posicao_x entries) in
  let? y := py_float E (Entries.posicao_y entries) in
  let? vx := py_float E (Entries.velocidade_x entries) in
  let? vy := py_float E (Entries.velocidade_y entries) in
  Ok (mass, x, y, vx, vy).

(** The value is the exception shown by [messagebox.showerror], if any. *)
Definition validate_new_body (E : Env) (entries : Entries.t) : M App.t (option exn) :=
  try_except
    (let! '(mass, x, y, vx, vy) := lift (parse_entries E entries) in
     let color := Entries.cor entries in
     let new_body := Body.init mass x y vx vy color in
     modify (fun self => App.set_bodies (App.bodies self ++ [new_body]) self) ;;;
     modify (fun self => App.set_trails
       (App.trails self ++ [deque.new (App.trail_length self)]) self) ;;;
     update_plot E ;;;
     ret None)
    (fun e => ret (Some e)).

Definition update_dt (days : num) : M App.t unit :=
  modify (App.set_dt (nmul days (PyFloat 86400))).

(** The command of the trail slider, line 92:
    [setattr(self, 'trail_length', int(v))] on the text [v] of the slider's
    value; when [int(v)] raises, the field is not written. *)
Definition set_trail_length (E : Env) (v : string) : M App.t unit :=
  let! n := lift (py_int E v) in
  modify (App.set_trail_length n).

(** [self.trails[i]] read *)
Definition trail_at (i : nat) : M App.t deque.t :=
  fun self =>
    match App.trails self !! i with
    | Some d => Done d self
    | None => Raised IndexError self
    end.

(** a method call mutating the deque object [self.trails[i]] *)
Definition store_trail (i : nat) (d : deque.t) : M App.t unit :=
  modify (fun self => App.set_trails (<[i:=d]> (App.trails self)) self).

(** Lines 203-205: the body of the trail loop, for index [i]. *)
Definition record_trail (i : nat) : M App.t unit :=
  let! body := on_bodies (body_at i) in
  (let! d := trail_at i in
   let! sx := lift (ndiv (Body.x body) SCALE_FACTOR) in
   let! sy := lift (ndiv (Body.y body) SCALE_FACTOR) in
   store_trail i (deque.append (sx, sy) d)) ;;;
  let! d := trail_at i in
  let! limit := gets App.trail_length in
  if limit <? deque.len d then
    let! d := trail_at i in
    let! '(_, d') := lift (deque.popleft d) in
    store_trail i d'
  else ret tt.

Definition run_simulation {L : Libm} (E : Env) : M App.t unit :=
  let! running := gets App.is_running in
  if (running : bool) then
    on_bodies compute_forces ;;;
    (let! dt := gets App.dt in on_bodies (update_positions dt)) ;;;
    (let! n := gets (fun self => length (App.bodies self)) in
     for_each (range 0 n) record_trail) ;;;
    update_plot E
  else ret tt.

Definition toggle_simulation {L : Libm} (E : Env) : M App.t unit :=
  modify (fun self => App.set_is_running (negb (App.is_running self)) self) ;;;
  let! running := gets App.is_running in
  if (running : bool) then run_simulation E else ret tt.

Definition reset_simulation (E : Env) : M App.t unit :=
  modify (App.set_is_running false) ;;;
  load_selected_preset E.

(** [SimulationApp.__init__]: the fields, then the first preset. The time
    step is the integer DT until the slider writes a float. *)
Definition fresh : App.t := App.mk [] false 100 DT [] "".

Definition init (E : Env) : App.t := state_of (load_selected_preset E fresh).

(** ** The callbacks of the window as events *)

Inductive event : Set :=
  | Timer                          (* [after(10, self.run_simulation)] fires *)
  | SelectPreset (name : string)   (* a choice in the combobox *)
  | ClickLoad                      (* "Carregar" *)
  | SlideDt (days : num)           (* the time-step slider *)
  | SlideTrail (v : string)        (* the trail slider, with the text of its value *)
  | ClickToggle                    (* "Iniciar" / "Pausar" / "Continuar" *)
  | ClickReset                     (* "Reiniciar" *)
  | SubmitBody (entries : Entries.t). (* "Adicionar" in the dialog *)

Definition handle {L : Libm} (E : Env) (ev : event) : M App.t unit :=
  match ev with
  | Timer => run_simulation E
  | SelectPreset name => modify (App.set_preset_var name)
  | ClickLoad => load_selected_preset E
  | SlideDt days => update_dt days
  | SlideTrail v => set_trail_length E v
  | ClickToggle => toggle_simulation E
  | ClickReset => reset_simulation E
  | SubmitBody entries => validate_new_body E entries ;;; ret tt
  end.

(** An exception that leaves a callback is reported by Tk and the window
    goes on with the fields as they are. *)
Definition react {L : Libm} (E : Env) (app : App.t) (ev : event) : App.t :=
  state_of (handle E ev app).

Definition run {L : Libm} (E : Env) (evs : list event) (app : App.t) : App.t :=
  fold_left (react E) evs app.

(** ** Notions used in the statements *)

(** The unordered pairs in the order the two loops of [compute_forces]
    visit them. *)
Definition pairs (n : nat) : list (nat * nat) :=
  flat_map (fun i => map (fun j => (i, j)) (range (i + 1) n)) (range 0 n).

(** The value of [f / b.mass] for a force [f] that is a numpy scalar. *)
Definition share (f : num) (b : Body.t) : num :=
  NpFloat (PrimFloat.div (val f) (val (Body.mass b))).

(** What lines 43-44 make of body i and lines 45-46 of body j. *)
Definition pushed (fx fy : num) (b : Body.t) : Body.t :=
  Body.set_ay (nadd (Body.ay b) (share fy b))
    (Body.set_ax (nadd (Body.ax b) (share fx b)) b).

Definition pulled (fx fy : num) (b : Body.t) : Body.t :=
  Body.set_ay (nsub (Body.ay b) (share fy b))
    (Body.set_ax (nsub (Body.ax b) (share fx b)) b).

(** What lines 29-30 make of one body. *)
Definition cleared (b : Body.t) : Body.t :=
  Body.set_ay (PyFloat 0) (Body.set_ax (PyFloat 0) b).

(** What the visit of the pair [p] makes of body [k], in state [b]: the
    force comes from the bodies of the list the computation started on. *)
Definition felt {L : Libm} (bodies : list Body.t) (k : nat) (b : Body.t) (p : nat * nat) : Body.t :=
  match bodies !! p.1, bodies !! p.2 with
  | Some bi, Some bj =>
      match pair_force bi bj with
      | Ok (fx, fy) =>
          if p.1 =? k then pushed fx fy b
          else if p.2 =? k then pulled fx fy b
          else b
      | Err _ => b
      end
  | _, _ => b
  end.

(** Every body after all the pairs, visited in the order of the loops. *)
Definition accelerated {L : Libm} (bodies : list Body.t) : list Body.t :=
  imap (fun k b => fold_left (felt bodies k) (pairs (length bodies)) (cleared b)) bodies.

(** What lines 50-53 make of one body, given the value of [dt**2]. *)
Definition verlet (dt2 : num) (b : Body.t) : Body.t :=
  Body.mk (Body.mass b)
    (nadd (nsub (nmul (PyFloat 2) (Body.x b)) (Body.prev_x b)) (nmul (Body.ax b) dt2))
    (nadd (nsub (nmul (PyFloat 2) (Body.y b)) (Body.prev_y b)) (nmul (Body.ay b) dt2))
    (Body.vx b) (Body.vy b) (Body.color b)
    (Body.x b) (Body.y b) (Body.ax b) (Body.ay b).

(** What lines 203-205 make of one deque: the append, then one [popleft]
    when the length exceeds [trail_length]. *)
Definition trail_record (limit : nat) (s : sample) (d : deque.t) : deque.t :=
  let d1 := deque.append s d in
  if limit <? deque.len d1 then deque.mk (tail (deque.items d1)) (deque.maxlen d1)
  else d1.

Definition records (limit : nat) (samples : list sample) (d : deque.t) : deque.t :=
  fold_left (fun d s => trail_record limit s d) samples d.

(** [v / SCALE_FACTOR] *)
Definition scaled (a : num) : num :=
  match a with
  | PyFloat v => PyFloat (PrimFloat.div v 1e9)
  | NpFloat v => NpFloat (PrimFloat.div v 1e9)
  end.

Definition trail_sample (b : Body.t) : sample := (scaled (Body.x b), scaled (Body.y b)).

(** Index alignment of the two collections. *)
Definition aligned (self : App.t) : Prop :=
  length (App.trails self) = length (App.bodies self).

(** A relation on stores that every run of [m] respects, whether [m]
    completes or raises. *)
Definition preserves {S A : Type} (R : S -> S -> Prop) (m : M S A) : Prop :=
  forall s, R s (state_of (m s)).

(** Two states of one body that differ at most in the acceleration. *)
Definition same_but_acceleration (b b' : Body.t) : Prop :=
  Body.mass b' = Body.mass b /\ Body.x b' = Body.x b /\ Body.y b' = Body.y b /\
  Body.vx b' = Body.vx b /\ Body.vy b' = Body.vy b /\ Body.color b' = Body.color b /\
  Body.prev_x b' = Body.prev_x b /\ Body.prev_y b' = Body.prev_y b.

(** Two states of one body that differ at most in position and previous
    position. *)
Definition same_but_position (b b' : Body.t) : Prop :=
  Body.mass b' = Body.mass b /\ Body.vx b' = Body.vx b /\ Body.vy b' = Body.vy b /\
  Body.color b' = Body.color b /\ Body.ax b' = Body.ax b /\ Body.ay b' = Body.ay b.

(** Two states of one body with the construction-time mass, velocity and
    color. *)
Definition same_identity (b b' : Body.t) : Prop :=
  Body.mass b' = Body.mass b /\ Body.vx b' = Body.vx b /\ Body.vy b' = Body.vy b /\
  Body.color b' = Body.color b.

(** The relations the callbacks are shown to respect. *)
Definition keeps_alignment (self self' : App.t) : Prop :=
  aligned self -> aligned self'.

Definition keeps_identity (self self' : App.t) : Prop :=
  Forall2 same_identity (App.bodies self) (App.bodies self').

(** [Body(b.mass, b.x, b.y, b.vx, b.vy, b.color)], line 137. *)
Definition rebuilt (b : Body.t) : Body.t :=
  Body.init (Body.mass b) (Body.x b) (Body.y b) (Body.vx b) (Body.vy b) (Body.color b).

(** The events that leave the list of bodies in place: all but a preset
    load and a new body. *)
Definition keeps_bodies (ev : event) : bool :=
  match ev with
  | ClickLoad | ClickReset | SubmitBody _ => false
  | _ => true
  end.

(** ** Concrete collaborators and inputs *)

(** A C library whose [pow(v, 2.0)] is the correctly rounded square and
    which reports no error of its own: the library the evaluations below
    are made with. *)
#[global] Instance correctly_rounded : Libm :=
  {| libm_pow := fun v w =>
       (if PrimFloat.eqb w 2 then PrimFloat.mul v v else PrimFloat.nan, false) |}.

(** [float] on the texts used below. *)
Definition float_of_text (s : string) : result num :=
  if String.eqb s "0" then Ok (PyFloat 0)
  else if String.eqb s "1" then Ok (PyFloat 1)
  else if String.eqb s "-5" then Ok (PyFloat (-5))
  else if String.eqb s "1e24" then Ok (PyFloat 1e24)
  else Err ValueError.

(** [int] on the texts used below: the text of an integer is converted,
    the text of a real number is refused. *)
Definition int_of_text (s : string) : result nat :=
  if String.eqb s "50" then Ok 50
  else if String.eqb s "50.0" then Err ValueError
  else Err ValueError.

(** The collaborators of a window whose drawing never fails. *)
Definition desk : Env :=
  {| py_float := float_of_text; py_int := int_of_text; draw := fun _ => Ok tt |}.

(** The texts the dialog opens with. *)
Definition default_entries : Entries.t :=
  Entries.mk "1e24" "0" "0" "0" "0" "white".

Definition massless_entries : Entries.t :=
  Entries.mk "0" "0" "0" "0" "0" "white".

Definition negative_entries : Entries.t :=
  Entries.mk "-5" "0" "0" "0" "0" "white".

Definition moving_entries : Entries.t :=
  Entries.mk "1e24" "0" "0" "1" "0" "white".

Definition binary : list Body.t :=
  [ Body.init (PyFloat 1e30) (PyFloat (-1e10)) (PyFloat 0) (PyFloat 0) (PyFloat 2e4) "red";
    Body.init (PyFloat 1e30) (PyFloat 1e10) (PyFloat 0) (PyFloat 0) (PyFloat (-2e4)) "blue" ].

Definition earth : Body.t :=
  Body.init (PyFloat 5.9724e24) (PyFloat 0) (PyFloat 0) (PyFloat 0) (PyFloat 0) "blue".

Definition moon : Body.t :=
  Body.init (PyFloat 7.342e22) (PyFloat 384.4e6) (PyFloat 0) (PyFloat 0) (PyFloat 1.022e3) "gray".

(** The preset "Órbita Lunar". *)
Definition earth_moon : list Body.t := [earth; moon].

(** The preset "Estrela Binária" after [compute_forces]: each star is
    accelerated towards the other. *)
Definition binary_pulled : list Body.t := state_of (compute_forces binary).

(** The first preset after "Iniciar" and 99 more timer events: 100 steps. *)
Definition hundred_steps : App.t :=
  run desk (ClickToggle :: repeat Timer 99) (init desk).

(** The first preset with one more body, added with the texts the dialog
    opens with: it sits on the Sun, at (0, 0). *)
Definition crowded : list Body.t :=
  App.bodies (run desk [SubmitBody default_entries] (init desk)).

(** ** Notions used in the further properties *)

(** A body whose position is held in numpy scalars, as it is after a step
    of a system of two bodies or more. *)
Definition np_position (b : Body.t) : Prop :=
  is_np (Body.x b) = true /\ is_np (Body.y b) = true.

Definition np_acceleration (b : Body.t) : Prop :=
  is_np (Body.ax b) = true /\ is_np (Body.ay b) = true.

Definition keeps_np (b b' : Body.t) : Prop := np_position b -> np_position b'.

(** The pair [p] contains the index [k]. *)
Definition involves (k : nat) (p : nat * nat) : Prop := p.1 = k \/ p.2 = k.

(** The fields of the window other than the two collections. *)
Definition same_settings (self self' : App.t) : Prop :=
  App.is_running self' = App.is_running self /\
  App.trail_length self' = App.trail_length self /\
  App.dt self' = App.dt self /\
  App.preset_var self' = App.preset_var self.

(** Every body is still there, at its index, with its mass, velocity and
    color. *)
Definition grows (self self' : App.t) : Prop :=
  forall (i : nat) (b : Body.t), App.bodies self !! i = Some b ->
    exists b', App.bodies self' !! i = Some b' /\ same_identity b b'.

(** The events that do not replace the list of bodies. *)
Definition keeps_list (ev : event) : bool :=
  match ev with
  | ClickLoad | ClickReset => false
  | _ => true
  end.

(** Every body of the window has its position in numpy scalars. *)
Definition warm (self : App.t) : Prop := Forall np_position (App.bodies self).

Definition keeps_warm (self self' : App.t) : Prop := warm self -> warm self'.

Definition same_bodies (self self' : App.t) : Prop :=
  App.bodies self' = App.bodies self.

(** The names of the presets, as the combobox lists them. *)
Definition preset_names : list string := map fst presets.

(** The first preset with a body on the Sun, the window running. *)
Definition stalled : App.t :=
  App.set_is_running true (run desk [SubmitBody default_entries] (init desk)).

(** A body whose position is held in numpy scalars. *)
Definition ghost : Body.t :=
  Body.mk (PyFloat 1) (NpFloat 3) (NpFloat 4) (PyFloat 0) (PyFloat 0) "white"
          (NpFloat 3) (NpFloat 4) (PyFloat 0) (PyFloat 0).

(** The collaborators of a window whose drawing always fails. *)
Definition stubborn : Env :=
  {| py_float := float_of_text; py_int := int_of_text; draw := fun _ => Err ValueError |}.

(** * Properties *)

(** ** Loops and stores *)

Lemma for_each_app {S A : Type} (l1 l2 : list A) (body : A -> M S unit) (s : S) :
  for_each (l1 ++ l2) body s = (for_each l1 body ;;; for_each l2 body) s.
Proof.
  revert s. induction l1 as [|a l1 IH]; intros s; simpl.
  - reflexivity.
  - unfold bind. destruct (body a s) as [[] s1|e s1]; [|reflexivity].
    rewrite IH. reflexivity.
Qed.

Lemma for_each_ext {S A : Type} (l : list A) (body1 body2 : A -> M S unit) (s : S) :
  (forall a s', body1 a s' = body2 a s') ->
  for_each l body1 s = for_each l body2 s.
Proof.
  intros Hext. revert s. induction l as [|a l IH]; intros s; simpl; [reflexivity|].
  unfold bind. rewrite Hext. destruct (body2 a s) as [[] s1|e s1]; auto.
Qed.

(** Nested loops visit the pairs of the flattened list, in order. *)
Lemma for_each_nested {S A B : Type} (l : list A) (inner : A -> list B)
    (body : A -> B -> M S unit) (s : S) :
  for_each l (fun a => for_each (inner a) (body a)) s =
  for_each (flat_map (fun a => map (fun b => (a, b)) (inner a)) l)
           (fun p => body p.1 p.2) s.
Proof.
  revert s. induction l as [|a l IH]; intros s; simpl; [reflexivity|].
  rewrite for_each_app. unfold bind.
  assert (Hin : forall k s', for_each (map (fun b => (a, b)) k) (fun p => body p.1 p.2) s'
                             = for_each k (body a) s').
  { induction k as [|b k IHk]; intros s'; simpl; [reflexivity|].
    unfold bind. destruct (body a b s') as [[] s1|e s1]; auto. }
  rewrite Hin. destruct (for_each (inner a) (body a) s) as [[] s1|e s1]; auto.
Qed.

Section Preservation.
Context {S : Type} (R : S -> S -> Prop) `{!Reflexive R} `{!Transitive R}.

Lemma preserves_ret {A : Type} (a : A) : preserves R (ret a).
Proof. intros s. simpl. reflexivity. Qed.

Lemma preserves_lift {A : Type} (r : result A) : preserves R (lift r).
Proof. intros s. unfold lift. destruct r; simpl; reflexivity. Qed.

Lemma preserves_gets {A : Type} (f : S -> A) : preserves R (gets f).
Proof. intros s. simpl. reflexivity. Qed.

Lemma preserves_modify (f : S -> S) :
  (forall s, R s (f s)) -> preserves R (modify f).
Proof. intros Hf s. simpl. apply Hf. Qed.

Lemma preserves_bind {A B : Type} (m : M S A) (k : A -> M S B) :
  preserves R m -> (forall a, preserves R (k a)) -> preserves R (bind m k).
Proof.
  intros Hm Hk s. unfold bind. specialize (Hm s).
  destruct (m s) as [a s1|e s1]; simpl in *; [|assumption].
  etransitivity; [eassumption|]. apply Hk.
Qed.

Lemma preserves_for_each {A : Type} (l : list A) (body : A -> M S unit) :
  (forall a, preserves R (body a)) -> preserves R (for_each l body).
Proof.
  intros Hbody. induction l as [|a l IH]; simpl.
  - apply preserves_ret.
  - apply preserves_bind; auto.
Qed.

Lemma preserves_try_except {A : Type} (m : M S A) (h : exn -> M S A) :
  preserves R m -> (forall e, preserves R (h e)) -> preserves R (try_except m h).
Proof.
  intros Hm Hh s. unfold try_except. specialize (Hm s).
  destruct (m s) as [a s1|e s1]; simpl in *; [assumption|].
  etransitivity; [eassumption|]. apply Hh.
Qed.

Lemma preserves_if {A : Type} (c : bool) (m1 m2 : M S A) :
  preserves R m1 -> preserves R m2 -> preserves R (if c then m1 else m2).
Proof. destruct c; auto. Qed.
End Preservation.

(** A relation between the states of one body, lifted to the list. *)
Section BodyFrame.
Context (P : Body.t -> Body.t -> Prop) `{!Reflexive P} `{!Transitive P}.

#[local] Instance Forall2_refl : Reflexive (Forall2 P).
Proof. intros l. induction l; constructor; auto. Qed.

#[local] Instance Forall2_trans : Transitive (Forall2 P).
Proof.
  intros l1 l2 l3 H12. revert l3.
  induction H12; intros l3 H23; inversion H23; subst; constructor; eauto.
Qed.

Lemma preserves_body_at (i : nat) : preserves (Forall2 P) (body_at i).
Proof. intros bs. unfold body_at. destruct (bs !! i); simpl; reflexivity. Qed.

Lemma preserves_update_at (i : nat) (f : Body.t -> result Body.t) :
  (forall b b', f b = Ok b' -> P b b') ->
  preserves (Forall2 P) (update_at i f).
Proof.
  intros Hf bs. unfold update_at.
  destruct (bs !! i) as [b|] eqn:Hi; simpl; [|reflexivity].
  destruct (f b) as [b'|e] eqn:Hb; simpl; [|reflexivity].
  rewrite <- (list_insert_id bs i b Hi) at 1.
  apply Forall2_insert; [reflexivity|]. auto.
Qed.
End BodyFrame.

(** The steps of a frame proof: a sequence, a loop, a branch, a statement
    that writes nothing. *)
Tactic Notation "frame_seq" :=
  apply preserves_bind; [apply _ | | intro].
Tactic Notation "frame_seq" "as" simple_intropattern(p) :=
  apply preserves_bind; [apply _ | | intros p].
Ltac frame_loop := apply preserves_for_each; [apply _ .. | intro].
Ltac frame_branch := apply preserves_if; [apply _ .. | | ].
Ltac frame_skip :=
  first [ apply preserves_ret; apply _
        | apply preserves_lift; apply _
        | apply preserves_gets; apply _
        | apply preserves_body_at; apply _ ].

(** A loop that updates every index in turn maps the update over the list. *)
Lemma for_each_update_from (f : Body.t -> result Body.t) (u : Body.t -> Body.t)
    (rest pre : list Body.t) :
  (forall b, f b = Ok (u b)) ->
  for_each (seq (length pre) (length rest)) (fun k => update_at k f) (pre ++ rest)
  = Done tt (pre ++ map u rest).
Proof.
  intros Hf. revert pre. induction rest as [|b rest IH]; intros pre; simpl.
  - reflexivity.
  - unfold bind, update_at. rewrite list_lookup_middle by reflexivity.
    rewrite Hf.
    replace (<[length pre:=u b]> (pre ++ b :: rest)) with ((pre ++ [u b]) ++ rest).
    + replace (S (length pre)) with (length (pre ++ [u b])).
      * rewrite IH. rewrite <- app_assoc. reflexivity.
      * rewrite length_app. simpl. lia.
    + rewrite <- app_assoc. simpl.
      rewrite <- (Nat.add_0_r (length pre)).
      rewrite insert_app_r. reflexivity.
Qed.

Lemma for_each_update_all (f : Body.t -> result Body.t) (u : Body.t -> Body.t)
    (bs : list Body.t) :
  (forall b, f b = Ok (u b)) ->
  for_each (range 0 (length bs)) (fun k => update_at k f) bs = Done tt (map u bs).
Proof.
  intros Hf. unfold range. rewrite Nat.sub_0_r.
  apply (for_each_update_from f u bs [] Hf).
Qed.

(** ** The frame of the two physics routines *)

#[local] Instance same_but_acceleration_refl : Reflexive same_but_acceleration.
Proof. intros b. unfold same_but_acceleration. tauto. Qed.

#[local] Instance same_but_acceleration_trans : Transitive same_but_acceleration.
Proof. unfold same_but_acceleration. intros b1 b2 b3 H12 H23. intuition congruence. Qed.

#[local] Instance same_but_position_refl : Reflexive same_but_position.
Proof. intros b. unfold same_but_position. tauto. Qed.

#[local] Instance same_but_position_trans : Transitive same_but_position.
Proof. unfold same_but_position. intros b1 b2 b3 H12 H23. intuition congruence. Qed.

#[local] Instance same_identity_refl : Reflexive same_identity.
Proof. intros b. unfold same_identity. tauto. Qed.

#[local] Instance same_identity_trans : Transitive same_identity.
Proof. unfold same_identity. intros b1 b2 b3 H12 H23. intuition congruence. Qed.

Lemma acceleration_writes (f : num) (b b' : Body.t) :
  add_ax f b = Ok b' \/ add_ay f b = Ok b' \/ sub_ax f b = Ok b' \/ sub_ay f b = Ok b' ->
  same_but_acceleration b b'.
Proof.
  unfold add_ax, add_ay, sub_ax, sub_ay, rbind.
  destruct (ndiv f (Body.mass b)) as [a|e];
    intros [H|[H|[H|H]]]; inversion H; subst; unfold same_but_acceleration; simpl; tauto.
Qed.

Lemma interact_frame {L : Libm} (i j : nat) :
  preserves (Forall2 same_but_acceleration) (interact i j).
Proof.
  unfold interact.
  frame_seq; [frame_skip|]. frame_seq; [frame_skip|].
  frame_seq as [fx fy]; [frame_skip|].
  repeat frame_seq;
    (apply preserves_update_at; [apply _ | intros b b' Hb];
     eapply acceleration_writes;
     first [ left; exact Hb | right; left; exact Hb
           | right; right; left; exact Hb | right; right; right; exact Hb ]).
Qed.

Lemma clear_acceleration_frame (i : nat) :
  preserves (Forall2 same_but_acceleration) (clear_acceleration i).
Proof.
  unfold clear_acceleration.
  frame_seq;
    (apply preserves_update_at; [apply _ | intros b b' Hb; inversion Hb; subst;
       unfold same_but_acceleration; simpl; tauto]).
Qed.

Lemma compute_forces_frame {L : Libm} :
  preserves (Forall2 same_but_acceleration) compute_forces.
Proof.
  unfold compute_forces. frame_seq; [frame_skip|]. frame_seq.
  - frame_loop. apply clear_acceleration_frame.
  - frame_loop. frame_loop. apply interact_frame.
Qed.

Lemma advance_frame {L : Libm} (dt : num) (b b' : Body.t) :
  advance dt b = Ok b' -> same_but_position b b'.
Proof.
  unfold advance, rbind. destruct (npow2 dt) as [dt2|e]; [|discriminate].
  intros H. inversion H; subst. unfold same_but_position; simpl. tauto.
Qed.

Lemma update_positions_frame {L : Libm} (dt : num) :
  preserves (Forall2 same_but_position) (update_positions dt).
Proof.
  unfold update_positions. frame_seq; [frame_skip|]. frame_loop.
  apply preserves_update_at; [apply _ | apply advance_frame].
Qed.

(** ** update_positions is the Verlet rule on every body *)

Lemma advance_verlet {L : Libm} (dt dt2 : num) (b : Body.t) :
  npow2 dt = Ok dt2 -> advance dt b = Ok (verlet dt2 b).
Proof. intros H. unfold advance. rewrite H. reflexivity. Qed.

Lemma update_positions_map {L : Libm} (dt dt2 : num) (bodies : list Body.t) :
  npow2 dt = Ok dt2 ->
  update_positions dt bodies = Done tt (map (verlet dt2) bodies).
Proof.
  intros H. unfold update_positions, bind, gets.
  apply for_each_update_all. intros b. apply advance_verlet, H.
Qed.

(** *** The value of [dt ** 2] *)

Lemma positive_float (v : float) :
  PrimFloat.ltb 0 v = true ->
  PrimFloat.is_nan v = false /\ PrimFloat.is_zero v = false /\ PrimFloat.ltb v 0 = false.
Proof.
  unfold PrimFloat.is_nan, PrimFloat.is_zero.
  rewrite !FloatAxioms.ltb_spec, !FloatAxioms.eqb_spec.
  change (FloatOps.Prim2SF 0) with (S754_zero false).
  change (FloatOps.Prim2SF zero) with (S754_zero false).
  unfold SFltb, SFeqb.
  destruct (FloatOps.Prim2SF v) as [s|s| |s m e]; simpl; try discriminate.
  - destruct s; try discriminate. auto.
  - destruct s; try discriminate. intros _.
    rewrite Z.compare_refl, Pos.compare_refl. auto.
Qed.

(** On a positive finite float other than 1, [v ** 2] is what the C
    library's [pow] returns for [v] and 2.0, unless it raises. *)
Lemma float_pow2_libm {L : Libm} (v s : float) :
  PrimFloat.ltb 0 v = true -> PrimFloat.eqb v 1 = false ->
  PrimFloat.is_infinity v = false ->
  float_pow2 v = Ok s -> s = (libm_pow v 2).1.
Proof.
  intros Hpos Hone Hfin. destruct (positive_float v Hpos) as (Hnan & Hzero & Hneg).
  unfold float_pow2. rewrite Hnan, Hfin, Hzero, Hneg, Hone.
  destruct (libm_pow v 2) as [ix range_error]. simpl.
  destruct (if range_error then _ else _); [discriminate|].
  intros Heq. inversion Heq. reflexivity.
Qed.

Lemma npow2_libm {L : Libm} (dt dt2 : num) :
  npow2 dt = Ok dt2 ->
  (forall v : float, dt = NpFloat v -> dt2 = NpFloat (libm_pow v 2).1) /\
  (forall v : float, dt = PyFloat v ->
     PrimFloat.ltb 0 v = true -> PrimFloat.eqb v 1 = false ->
     PrimFloat.is_infinity v = false ->
     dt2 = PyFloat (libm_pow v 2).1).
Proof.
  intros H. split; intros v ->; simpl in H.
  - inversion H. reflexivity.
  - intros Hpos Hone Hfin.
    destruct (float_pow2 v) as [s|e] eqn:Hv; simpl in H; [|discriminate].
    inversion H. f_equal. apply float_pow2_libm; assumption.
Qed.

(** C1. One call of [update_positions] with a time step [dt] on which
    [dt ** 2] raises nothing and has the value [dt2] (for a numpy scalar,
    and for a Python float that is positive, finite and not 1, as every
    step of the slider is, [dt2] is what the C library's [pow] returns for
    [dt] and 2.0) completes and, for every body of the list, independently
    of the others, computes
    new_position = 2*position - previous_position + acceleration*dt**2
    componentwise, sets previous_position to the old position and position
    to new_position, and leaves the collection at its length. *)
Theorem update_positions_verlet {L : Libm} (dt dt2 : num) (bodies : list Body.t) :
  npow2 dt = Ok dt2 ->
  ((forall v : float, dt = NpFloat v -> dt2 = NpFloat (libm_pow v 2).1) /\
   (forall v : float, dt = PyFloat v ->
      PrimFloat.ltb 0 v = true -> PrimFloat.eqb v 1 = false ->
      PrimFloat.is_infinity v = false ->
      dt2 = PyFloat (libm_pow v 2).1)) /\
  exists bodies',
    update_positions dt bodies = Done tt bodies' /\
    length bodies' = length bodies /\
    forall (i : nat) (b : Body.t), bodies !! i = Some b ->
      exists b', bodies' !! i = Some b' /\
        Body.x b' = nadd (nsub (nmul (PyFloat 2) (Body.x b)) (Body.prev_x b))
                         (nmul (Body.ax b) dt2) /\
        Body.y b' = nadd (nsub (nmul (PyFloat 2) (Body.y b)) (Body.prev_y b))
                         (nmul (Body.ay b) dt2) /\
        Body.prev_x b' = Body.x b /\
        Body.prev_y b' = Body.y b /\
        b' = verlet dt2 b.
Proof.
  intros H. split; [apply npow2_libm, H|].
  exists (map (verlet dt2) bodies). split; [|split].
  - apply update_positions_map, H.
  - apply length_map.
  - intros i b Hb. exists (verlet dt2 b). rewrite list_lookup_fmap, Hb. simpl.
    repeat split; reflexivity.
Qed.

Lemma update_positions_verlet_witness :
  npow2 DT = Ok (PyFloat 7464960000) /\
  PyFloat 7464960000 = PyFloat (libm_pow 86400 2).1 /\
  Forall (fun b => PrimFloat.is_zero (val (Body.ax b)) = false) binary_pulled /\
  exists bodies',
    update_positions DT binary_pulled = Done tt bodies' /\
    length bodies' = length binary_pulled /\
    map Body.x bodies' = [NpFloat (-8754415436.8); NpFloat 8754415436.8] /\
    forall (i : nat) (b : Body.t), binary_pulled !! i = Some b ->
      exists b', bodies' !! i = Some b' /\
        Body.x b' = nadd (nsub (nmul (PyFloat 2) (Body.x b)) (Body.prev_x b))
                         (nmul (Body.ax b) (PyFloat 7464960000)) /\
        Body.y b' = nadd (nsub (nmul (PyFloat 2) (Body.y b)) (Body.prev_y b))
                         (nmul (Body.ay b) (PyFloat 7464960000)) /\
        Body.prev_x b' = Body.x b /\
        Body.prev_y b' = Body.y b /\
        b' = verlet (PyFloat 7464960000) b.
Proof.
  assert (Hdt : npow2 DT = Ok (PyFloat 7464960000)) by reflexivity.
  split; [exact Hdt|].
  destruct (update_positions_verlet DT (PyFloat 7464960000) binary_pulled Hdt)
    as ((_ & Hpy) & bodies' & Hrun & Hlen & Hall).
  split; [apply (Hpy 86400%float); reflexivity|].
  split; [vm_compute; repeat constructor|].
  exists bodies'. split; [exact Hrun|]. split; [exact Hlen|]. split; [|exact Hall].
  assert (Heq : Done tt bodies' = Done tt (map (verlet (PyFloat 7464960000)) binary_pulled)).
  { rewrite <- Hrun. apply update_positions_map. exact Hdt. }
  inversion Heq; subst. vm_compute. reflexivity.
Defined.

(** ** compute_forces: one evaluation per unordered pair *)

Lemma in_range (lo hi k : nat) : In k (range lo hi) <-> lo <= k < hi.
Proof. unfold range. rewrite in_seq. lia. Qed.

Lemma in_pairs (n i j : nat) : In (i, j) (pairs n) <-> i < j < n.
Proof.
  unfold pairs. rewrite in_flat_map. split.
  - intros (i' & Hi & Hj). apply in_map_iff in Hj as (j' & Heq & Hj).
    inversion Heq; subst. apply in_range in Hi, Hj. lia.
  - intros H. exists i. split; [apply in_range; lia|].
    apply in_map_iff. exists j. split; [reflexivity|]. apply in_range. lia.
Qed.

Lemma NoDup_range (lo hi : nat) : NoDup (range lo hi).
Proof. apply NoDup_seq. Qed.

Lemma NoDup_flat_pairs (l : list nat) (inner : nat -> list nat) :
  NoDup l -> (forall i, NoDup (inner i)) ->
  NoDup (flat_map (fun i => map (fun j => (i, j)) (inner i)) l).
Proof.
  intros Hl Hin. induction Hl as [|a l Ha Hl IH]; simpl; [constructor|].
  apply NoDup_app. split; [|split].
  - apply (NoDup_fmap_2 (fun j => (a, j))). apply Hin.
  - intros [i j] H1 H2. apply list_elem_of_In in H1, H2.
    apply in_map_iff in H1 as (j' & Heq & _). inversion Heq; subst.
    apply in_flat_map in H2 as (i' & Hi' & Hj').
    apply in_map_iff in Hj' as (j'' & Heq' & _). inversion Heq'; subst.
    apply Ha. apply list_elem_of_In. exact Hi'.
  - exact IH.
Qed.

Lemma NoDup_pairs (n : nat) : NoDup (pairs n).
Proof.
  unfold pairs. apply NoDup_flat_pairs; [apply NoDup_range|].
  intros i. apply NoDup_range.
Qed.

Lemma compute_forces_pairs {L : Libm} (bodies : list Body.t) :
  compute_forces bodies =
  (for_each (range 0 (length bodies)) clear_acceleration ;;;
   for_each (pairs (length bodies)) (fun p => interact p.1 p.2)) bodies.
Proof.
  unfold compute_forces, bind, gets.
  destruct (for_each (range 0 (length bodies)) clear_acceleration bodies)
    as [[] bs1|e bs1]; [|reflexivity].
  unfold pairs. rewrite <- for_each_nested. reflexivity.
Qed.

(** The force of a pair is a numpy scalar, so the divisions by the masses
    never raise. *)
Lemma pair_force_np {L : Libm} (bi bj : Body.t) (fx fy : num) :
  pair_force bi bj = Ok (fx, fy) -> is_np fx = true /\ is_np fy = true.
Proof.
  unfold pair_force, rbind.
  destruct (npow2 _) as [dx2|]; [|discriminate].
  destruct (npow2 _) as [dy2|]; [|discriminate].
  destruct (ndiv _ (nadd dx2 dy2)) as [F|]; [|discriminate].
  unfold np_sqrt. simpl.
  destruct (nmul F (nsub (Body.x bj) (Body.x bi)));
    destruct (nmul F (nsub (Body.y bj) (Body.y bi)));
    simpl; intros H; inversion H; subst; split; reflexivity.
Qed.

Lemma ndiv_np (f m : num) :
  is_np f = true -> ndiv f m = Ok (NpFloat (PrimFloat.div (val f) (val m))).
Proof. destruct f, m; simpl; intros H; try discriminate; reflexivity. Qed.

(** The force depends on the positions and masses only, which
    [compute_forces] never writes. *)
Lemma pair_force_frame {L : Libm} (bi bj bi' bj' : Body.t) :
  same_but_acceleration bi bi' -> same_but_acceleration bj bj' ->
  pair_force bi' bj' = pair_force bi bj.
Proof.
  unfold same_but_acceleration. intros (Hm & Hx & Hy & _) (Hm' & Hx' & Hy' & _).
  unfold pair_force. rewrite Hm, Hx, Hy, Hm', Hx', Hy'. reflexivity.
Qed.

Lemma update_at_lookup (i : nat) (f : Body.t -> result Body.t) (bs : list Body.t)
    (b b' : Body.t) :
  bs !! i = Some b -> f b = Ok b' -> update_at i f bs = Done tt (<[i:=b']> bs).
Proof. intros Hi Hf. unfold update_at. rewrite Hi, Hf. reflexivity. Qed.

Lemma ndiv_share (f : num) (b : Body.t) :
  is_np f = true -> ndiv f (Body.mass b) = Ok (share f b).
Proof. apply ndiv_np. Qed.

Lemma interact_effect {L : Libm} (bodies : list Body.t) (i j : nat) (bi bj : Body.t) (fx fy : num) :
  i <> j -> bodies !! i = Some bi -> bodies !! j = Some bj ->
  pair_force bi bj = Ok (fx, fy) ->
  interact i j bodies =
  Done tt (<[j := pulled fx fy bj]> (<[i := pushed fx fy bi]> bodies)).
Proof.
  intros Hij Hi Hj Hf. destruct (pair_force_np _ _ _ _ Hf) as [Hfx Hfy].
  assert (Hli : i < length bodies) by (apply lookup_lt_is_Some; eauto).
  assert (Hlj : j < length bodies) by (apply lookup_lt_is_Some; eauto).
  unfold interact, bind, body_at, lift. rewrite Hj, Hi, Hf.
  erewrite update_at_lookup;
    [| exact Hi | unfold add_ax; rewrite (ndiv_np _ _ Hfx); reflexivity].
  erewrite update_at_lookup;
    [| apply list_lookup_insert_eq; exact Hli
     | unfold add_ay; rewrite (ndiv_np _ _ Hfy); reflexivity].
  rewrite list_insert_insert_eq.
  erewrite update_at_lookup;
    [| rewrite list_lookup_insert_ne by exact Hij; exact Hj
     | unfold sub_ax; rewrite (ndiv_np _ _ Hfx); reflexivity].
  erewrite update_at_lookup;
    [| apply list_lookup_insert_eq; rewrite length_insert; exact Hlj
     | unfold sub_ay; rewrite (ndiv_np _ _ Hfy); reflexivity].
  rewrite list_insert_insert_eq. reflexivity.
Qed.

(** *** The accelerations in closed form *)

Lemma clear_acceleration_update (i : nat) (bs : list Body.t) :
  clear_acceleration i bs = update_at i (fun b => Ok (cleared b)) bs.
Proof.
  unfold clear_acceleration, bind, update_at.
  destruct (bs !! i) as [b|] eqn:Hi; [|reflexivity].
  rewrite list_lookup_insert_eq by (apply lookup_lt_is_Some; eauto).
  rewrite list_insert_insert_eq. reflexivity.
Qed.

Lemma clear_all (bodies : list Body.t) :
  for_each (range 0 (length bodies)) clear_acceleration bodies
  = Done tt (map cleared bodies).
Proof.
  rewrite (for_each_ext _ _ (fun i => update_at i (fun b => Ok (cleared b))))
    by apply clear_acceleration_update.
  apply for_each_update_all. reflexivity.
Qed.

Lemma pushed_frame (fx fy : num) (b : Body.t) : same_but_acceleration b (pushed fx fy b).
Proof. unfold same_but_acceleration. simpl. tauto. Qed.

Lemma pulled_frame (fx fy : num) (b : Body.t) : same_but_acceleration b (pulled fx fy b).
Proof. unfold same_but_acceleration. simpl. tauto. Qed.

Lemma felt_frame {L : Libm} (bodies : list Body.t) (k : nat) (b : Body.t) (p : nat * nat) :
  same_but_acceleration b (felt bodies k b p).
Proof.
  unfold felt. destruct (bodies !! p.1); [|reflexivity].
  destruct (bodies !! p.2); [|reflexivity].
  destruct (pair_force _ _) as [[fx fy]|]; [|reflexivity].
  destruct (p.1 =? k); [apply pushed_frame|].
  destruct (p.2 =? k); [apply pulled_frame|reflexivity].
Qed.

Lemma felt_all_frame {L : Libm} (bodies : list Body.t) (k : nat) (ps : list (nat * nat)) (b : Body.t) :
  same_but_acceleration b (fold_left (felt bodies k) ps (cleared b)).
Proof.
  induction ps as [|p ps IH] using rev_ind.
  - unfold same_but_acceleration. simpl. tauto.
  - rewrite fold_left_app. simpl. etransitivity; [exact IH|apply felt_frame].
Qed.

Lemma felt_visit {L : Libm} (bodies : list Body.t) (k : nat) (b : Body.t) (i j : nat)
    (bi bj : Body.t) (fx fy : num) :
  bodies !! i = Some bi -> bodies !! j = Some bj -> pair_force bi bj = Ok (fx, fy) ->
  felt bodies k b (i, j) =
    if i =? k then pushed fx fy b else if j =? k then pulled fx fy b else b.
Proof. intros Hi Hj Hf. unfold felt. simpl. rewrite Hi, Hj, Hf. reflexivity. Qed.

(** The loop over the pairs, started after the pairs [done] and run on the
    pairs [todo], none of which raises. *)
Lemma interact_all {L : Libm} (bodies : list Body.t) (todo : list (nat * nat)) :
  forall done : list (nat * nat),
    (forall i j bi bj, In (i, j) todo -> bodies !! i = Some bi -> bodies !! j = Some bj ->
                       i < j /\ exists f, pair_force bi bj = Ok f) ->
    (forall i j, In (i, j) todo -> i < j < length bodies) ->
    for_each todo (fun p => interact p.1 p.2)
      (imap (fun k b => fold_left (felt bodies k) done (cleared b)) bodies)
    = Done tt (imap (fun k b => fold_left (felt bodies k) (done ++ todo) (cleared b)) bodies).
Proof.
  induction todo as [|[i j] todo IH]; intros done Hok Hin.
  - simpl. rewrite app_nil_r. reflexivity.
  - destruct (Hin i j (or_introl eq_refl)) as [Hij Hj].
    destruct (lookup_lt_is_Some_2 bodies i ltac:(lia)) as [bi Hbi].
    destruct (lookup_lt_is_Some_2 bodies j Hj) as [bj Hbj].
    destruct (Hok i j bi bj (or_introl eq_refl) Hbi Hbj) as [_ [[fx fy] Hf]].
    simpl. unfold bind.
    erewrite (interact_effect _ i j _ _ fx fy); [| lia | | |].
    2: { rewrite list_lookup_imap, Hbi. reflexivity. }
    2: { rewrite list_lookup_imap, Hbj. reflexivity. }
    2: { rewrite <- Hf. apply pair_force_frame; apply felt_all_frame. }
    replace (done ++ (i, j) :: todo) with ((done ++ [(i, j)]) ++ todo)
      by (rewrite <- app_assoc; reflexivity).
    rewrite <- IH.
    + f_equal. apply list_eq. intros k.
      rewrite list_lookup_imap.
      destruct (decide (k = j)) as [->|Hkj].
      * rewrite list_lookup_insert_eq
          by (rewrite length_insert, length_imap; exact Hj).
        rewrite Hbj. simpl. rewrite fold_left_app. simpl.
        rewrite (felt_visit _ _ _ i j bi bj fx fy) by assumption.
        replace (i =? j) with false by (symmetry; apply Nat.eqb_neq; lia).
        rewrite Nat.eqb_refl. reflexivity.
      * rewrite list_lookup_insert_ne by congruence.
        destruct (decide (k = i)) as [->|Hki].
        -- rewrite list_lookup_insert_eq by (rewrite length_imap; lia).
           rewrite Hbi. simpl. rewrite fold_left_app. simpl.
           rewrite (felt_visit _ _ _ i j bi bj fx fy) by assumption.
           rewrite Nat.eqb_refl. reflexivity.
        -- rewrite list_lookup_insert_ne by congruence.
           rewrite list_lookup_imap.
           destruct (bodies !! k) as [bk|]; [|reflexivity]. simpl.
           rewrite fold_left_app. simpl.
           rewrite (felt_visit _ _ _ i j bi bj fx fy) by assumption.
           replace (i =? k) with false by (symmetry; apply Nat.eqb_neq; congruence).
           replace (j =? k) with false by (symmetry; apply Nat.eqb_neq; congruence).
           reflexivity.
    + intros i' j' bi' bj' H'. apply Hok. right. exact H'.
    + intros i' j' H'. apply Hin. right. exact H'.
Qed.

(** When no pair raises, [compute_forces] completes and leaves on every body
    the sum, in the order of the loops, of what its pairs contribute. *)
Lemma compute_forces_accelerated {L : Libm} (bodies : list Body.t) :
  (forall i j bi bj, i < j -> bodies !! i = Some bi -> bodies !! j = Some bj ->
                     exists f, pair_force bi bj = Ok f) ->
  compute_forces bodies = Done tt (accelerated bodies).
Proof.
  intros Hok. rewrite compute_forces_pairs. unfold bind. rewrite clear_all.
  replace (map cleared bodies)
    with (imap (fun k b => fold_left (felt bodies k) [] (cleared b)) bodies).
  - apply (interact_all bodies (pairs (length bodies)) []).
    + intros i j bi bj Hin Hi Hj. apply in_pairs in Hin. split; [lia|].
      apply (Hok i j); [lia|assumption..].
    + intros i j Hin. apply in_pairs in Hin. exact Hin.
  - apply list_eq. intros k. rewrite list_lookup_imap, list_lookup_fmap. reflexivity.
Qed.

(** C3 (as amended). For every pair of bodies i < j, the pair is visited
    exactly once by [compute_forces], in the orientation (i, j); one force
    (fx, fy) is computed for it; body i receives +fx/m_i, +fy/m_i and body j
    receives -fx/m_j, -fy/m_j: the two contributions carry the same force
    with opposite signs, each divided by the body's own mass, and have the
    same magnitude when the two masses are the same. (The accelerations that
    result for all the bodies are given by [compute_forces_accelerated].) *)
Theorem pair_contributions {L : Libm} (bodies : list Body.t) (i j : nat) (bi bj : Body.t)
    (fx fy : num) :
  i < j -> bodies !! i = Some bi -> bodies !! j = Some bj ->
  pair_force bi bj = Ok (fx, fy) ->
  (compute_forces bodies =
     (for_each (range 0 (length bodies)) clear_acceleration ;;;
      for_each (pairs (length bodies)) (fun p => interact p.1 p.2)) bodies /\
   NoDup (pairs (length bodies)) /\
   In (i, j) (pairs (length bodies)) /\
   ~ In (j, i) (pairs (length bodies))) /\
  (ndiv fx (Body.mass bi) = Ok (share fx bi) /\
   ndiv fy (Body.mass bi) = Ok (share fy bi) /\
   ndiv fx (Body.mass bj) = Ok (share fx bj) /\
   ndiv fy (Body.mass bj) = Ok (share fy bj)) /\
  (exists bi' bj',
     interact i j bodies = Done tt (<[j := bj']> (<[i := bi']> bodies)) /\
     Body.ax bi' = nadd (Body.ax bi) (share fx bi) /\
     Body.ay bi' = nadd (Body.ay bi) (share fy bi) /\
     Body.ax bj' = nsub (Body.ax bj) (share fx bj) /\
     Body.ay bj' = nsub (Body.ay bj) (share fy bj) /\
     same_but_acceleration bi bi' /\ same_but_acceleration bj bj') /\
  (Body.mass bi = Body.mass bj ->
     share fx bj = share fx bi /\ share fy bj = share fy bi).
Proof.
  intros Hij Hi Hj Hf. destruct (pair_force_np _ _ _ _ Hf) as [Hfx Hfy].
  assert (Hlj : j < length bodies) by (apply lookup_lt_is_Some; eauto).
  split; [|split; [|split]].
  - split; [apply compute_forces_pairs|]. split; [apply NoDup_pairs|].
    split; [apply in_pairs; lia|]. rewrite in_pairs. lia.
  - repeat split; apply ndiv_share; assumption.
  - exists (pushed fx fy bi), (pulled fx fy bj).
    split; [apply interact_effect; [lia|assumption..]|].
    unfold same_but_acceleration. simpl. tauto.
  - intros Hm. unfold share. rewrite Hm. split; reflexivity.
Qed.

Lemma pair_contributions_witness :
  exists fx fy : num,
    (0 < 1 /\ earth_moon !! 0 = Some earth /\ earth_moon !! 1 = Some moon /\
     pair_force earth moon = Ok (fx, fy)) /\
    exists bi' bj',
      interact 0 1 earth_moon = Done tt (<[1 := bj']> (<[0 := bi']> earth_moon)) /\
      Body.ax bi' = nadd (Body.ax earth) (share fx earth) /\
      Body.ax bj' = nsub (Body.ax moon) (share fx moon).
Proof.
  let p := eval vm_compute in (pair_force earth moon) in
  match p with
  | Ok (?fx, ?fy) =>
      exists fx, fy; split;
      [ split; [lia|]; split; [reflexivity|]; split; [reflexivity|];
        vm_compute; reflexivity
      | destruct (pair_contributions earth_moon 0 1 earth moon fx fy)
          as (_ & _ & (bi' & bj' & Hrun & Hax & _ & Hbx & _) & _);
        [ lia | reflexivity | reflexivity | vm_compute; reflexivity | ];
        exists bi', bj'; split; [exact Hrun|]; split; [exact Hax|exact Hbx] ]
  end.
Defined.

(** C3, as stated, fails on the preset "Órbita Lunar": the Earth and the
    Moon receive accelerations of different magnitudes (the lighter body the
    larger one), with opposite signs. *)
Lemma earth_moon_accelerations_differ :
  exists e' m',
    compute_forces earth_moon = Done tt [e'; m'] /\
    PrimFloat.ltb 0 (val (Body.ax e')) = true /\
    PrimFloat.ltb (val (Body.ax m')) 0 = true /\
    PrimFloat.ltb (nabs (Body.ax e')) (nabs (Body.ax m')) = true.
Proof.
  eexists; eexists. split; [vm_compute; reflexivity|].
  split; [|split]; vm_compute; reflexivity.
Qed.

(** ** compute_forces on coincident bodies *)

(** C2 fails on the code: line 39 divides by [r_sq], which the softening
    term of line 37 does not touch. With the first preset and one more body
    added with the texts the dialog opens with (it lies on the Sun, at
    (0, 0)), all masses are positive and [compute_forces] raises
    ZeroDivisionError. *)
Theorem coincident_bodies_raise :
  Forall (fun b => PrimFloat.ltb 0 (val (Body.mass b)) = true) crowded /\
  (exists sun new, crowded !! 0 = Some sun /\ crowded !! 4 = Some new /\
     Body.x new = Body.x sun /\ Body.y new = Body.y sun) /\
  exists bodies', compute_forces crowded = Raised ZeroDivisionError bodies'.
Proof.
  split; [|split].
  - vm_compute. repeat constructor.
  - eexists; eexists. vm_compute. repeat split; reflexivity.
  - eexists. vm_compute. reflexivity.
Qed.

(** For coincident bodies whose positions are numpy scalars (as they are
    after a step), nothing is raised and the acceleration is not a number. *)
Lemma coincident_arrays_nan :
  let b := Body.mk (PyFloat 1) (NpFloat 3) (NpFloat 4) (PyFloat 0) (PyFloat 0) "white"
                   (NpFloat 3) (NpFloat 4) (PyFloat 0) (PyFloat 0) in
  exists b1 b2,
    compute_forces [b; b] = Done tt [b1; b2] /\
    PrimFloat.is_nan (val (Body.ax b1)) = true /\
    PrimFloat.is_nan (val (Body.ax b2)) = true.
Proof.
  eexists; eexists. split; [vm_compute; reflexivity|].
  split; vm_compute; reflexivity.
Qed.

(** ** The window: what each callback keeps *)

Lemma set_bodies_same (self : App.t) : App.set_bodies (App.bodies self) self = self.
Proof. destruct self; reflexivity. Qed.

Lemma on_bodies_state {A : Type} (m : M (list Body.t) A) (self : App.t) :
  state_of (on_bodies m self) = App.set_bodies (state_of (m (App.bodies self))) self.
Proof. unfold on_bodies. destruct (m (App.bodies self)); reflexivity. Qed.

Lemma update_plot_state (E : Env) (self : App.t) :
  state_of (update_plot E self) = self.
Proof. unfold update_plot, bind, gets, lift. destruct (draw E (id self)); reflexivity. Qed.

Section WindowFrame.
Context (R : App.t -> App.t -> Prop) `{!Reflexive R} `{!Transitive R}.

Lemma preserves_on_bodies {A : Type} (Rb : list Body.t -> list Body.t -> Prop)
    (m : M (list Body.t) A) :
  (forall self bodies', Rb (App.bodies self) bodies' ->
                        R self (App.set_bodies bodies' self)) ->
  preserves Rb m -> preserves R (on_bodies m).
Proof. intros HR Hm self. rewrite on_bodies_state. apply HR, Hm. Qed.

Lemma preserves_update_plot (E : Env) : preserves R (update_plot E).
Proof. intros self. rewrite update_plot_state. reflexivity. Qed.

Lemma preserves_trail_at (i : nat) : preserves R (trail_at i).
Proof. intros self. unfold trail_at. destruct (_ !! i); simpl; reflexivity. Qed.

(** A callback keeps [R] as soon as its writes do. *)
Context (Hbodies : forall (P : Body.t -> Body.t -> Prop) self bodies',
            (forall b b', P b b' -> same_identity b b') ->
            Forall2 P (App.bodies self) bodies' ->
            R self (App.set_bodies bodies' self))
        (Htrail : forall self i d, R self (App.set_trails (<[i:=d]> (App.trails self)) self))
        (Hrun : forall self v, R self (App.set_is_running v self))
        (Hdt : forall self v, R self (App.set_dt v self))
        (Hlimit : forall self v, R self (App.set_trail_length v self))
        (Hvar : forall self v, R self (App.set_preset_var v self)).

Lemma preserves_record_trail (i : nat) : preserves R (record_trail i).
Proof.
  assert (Hwrite : forall i d, preserves R (store_trail i d)).
  { intros k d. apply preserves_modify. intros self. apply Htrail. }
  unfold record_trail. frame_seq.
  { apply (preserves_on_bodies (Forall2 same_identity)).
    - intros self bodies'. apply Hbodies. auto.
    - frame_skip. }
  frame_seq.
  { frame_seq; [apply preserves_trail_at|].
    frame_seq; [frame_skip|]. frame_seq; [frame_skip|]. apply Hwrite. }
  frame_seq; [apply preserves_trail_at|]. frame_seq; [frame_skip|].
  frame_branch; [|frame_skip].
  frame_seq; [apply preserves_trail_at|]. frame_seq as [s d']; [frame_skip|].
  apply Hwrite.
Qed.

Lemma preserves_run_simulation {L : Libm} (E : Env) : preserves R (run_simulation E).
Proof.
  unfold run_simulation. frame_seq; [frame_skip|]. frame_branch; [|frame_skip].
  frame_seq.
  { apply (preserves_on_bodies (Forall2 same_but_acceleration)).
    - intros self bodies'. apply Hbodies.
      unfold same_but_acceleration, same_identity. tauto.
    - apply compute_forces_frame. }
  frame_seq.
  { frame_seq; [frame_skip|].
    apply (preserves_on_bodies (Forall2 same_but_position)).
    - intros self bodies'. apply Hbodies.
      unfold same_but_position, same_identity. tauto.
    - apply update_positions_frame. }
  frame_seq.
  { frame_seq; [frame_skip|]. frame_loop. apply preserves_record_trail. }
  apply preserves_update_plot.
Qed.

Lemma preserves_toggle_simulation {L : Libm} (E : Env) : preserves R (toggle_simulation E).
Proof.
  unfold toggle_simulation. frame_seq.
  { apply preserves_modify. intros self. apply Hrun. }
  frame_seq; [frame_skip|].
  frame_branch; [apply preserves_run_simulation|frame_skip].
Qed.

(** The callbacks that neither load a preset nor add a body. *)
Lemma preserves_quiet_event {L : Libm} (E : Env) (ev : event) :
  keeps_bodies ev = true -> preserves R (handle E ev).
Proof.
  destruct ev; simpl; intros Hev; try discriminate.
  - apply preserves_run_simulation.
  - apply preserves_modify. intros self. apply Hvar.
  - apply preserves_modify. intros self. apply Hdt.
  - unfold set_trail_length. frame_seq; [frame_skip|].
    apply preserves_modify. intros self. apply Hlimit.
  - apply preserves_toggle_simulation.
Qed.
End WindowFrame.

(** ** Adding a body and loading a preset *)

Lemma update_plot_run (E : Env) (self : App.t) :
  update_plot E self = Done tt self \/ exists e, update_plot E self = Raised e self.
Proof.
  unfold update_plot, bind, gets, lift, id.
  destruct (draw E self) as [[]|e]; [left|right; exists e]; reflexivity.
Qed.

Lemma validate_new_body_run (E : Env) (entries : Entries.t) (self : App.t) :
  match parse_entries E entries with
  | Err e => validate_new_body E entries self = Done (Some e) self
  | Ok (mass, x, y, vx, vy) =>
      exists shown : option exn,
        validate_new_body E entries self =
        Done shown
          (App.set_trails (App.trails self ++ [deque.new (App.trail_length self)])
             (App.set_bodies
                (App.bodies self ++ [Body.init mass x y vx vy (Entries.cor entries)])
                self))
  end.
Proof.
  unfold validate_new_body, try_except, bind, lift, modify, ret.
  destruct (parse_entries E entries) as [[[[[mass x] y] vx] vy]|e]; [|reflexivity].
  match goal with |- context [update_plot E ?a] =>
    destruct (update_plot_run E a) as [->|[e ->]] end;
    eexists; reflexivity.
Qed.

Lemma load_selected_preset_run (E : Env) (self : App.t) :
  let name := if String.eqb (App.preset_var self) "" then "Sistema Solar"%string
              else App.preset_var self in
  match dict_get presets name with
  | Err e =>
      load_selected_preset E self = Raised e (App.set_preset_var name self)
  | Ok preset =>
      state_of (load_selected_preset E self) =
      App.set_trails (map (fun _ => deque.new (App.trail_length self)) (map rebuilt preset))
        (App.set_bodies (map rebuilt preset) (App.set_preset_var name self))
  end.
Proof.
  unfold load_selected_preset, bind, lift, modify, gets, ret.
  destruct self as [bs run tl dt ts var]. cbv zeta. cbn [App.preset_var].
  destruct (String.eqb var "") eqn:Hvar.
  - cbn [dict_get presets String.eqb Ascii.eqb Bool.eqb].
    match goal with |- context [update_plot E ?a] =>
      destruct (update_plot_run E a) as [->|[e ->]] end; reflexivity.
  - destruct (dict_get presets var) as [preset|e]; [|reflexivity].
    match goal with |- context [update_plot E ?a] =>
      destruct (update_plot_run E a) as [->|[e ->]] end; reflexivity.
Qed.

#[local] Instance keeps_alignment_refl : Reflexive keeps_alignment.
Proof. intros self H. exact H. Qed.

#[local] Instance keeps_alignment_trans : Transitive keeps_alignment.
Proof. intros s1 s2 s3 H12 H23 H. auto. Qed.

#[local] Instance keeps_identity_refl : Reflexive keeps_identity.
Proof. intros self. unfold keeps_identity. reflexivity. Qed.

#[local] Instance keeps_identity_trans : Transitive keeps_identity.
Proof. intros s1 s2 s3. unfold keeps_identity. intros H12 H23. etransitivity; eassumption. Qed.

Lemma validate_new_body_aligned (E : Env) (entries : Entries.t) :
  preserves keeps_alignment (validate_new_body E entries).
Proof.
  intros self Hal. pose proof (validate_new_body_run E entries self) as Hrun.
  destruct (parse_entries E entries) as [[[[[mass x] y] vx] vy]|e].
  - destruct Hrun as [shown ->]. unfold aligned in *. simpl.
    rewrite !length_app. simpl. lia.
  - rewrite Hrun. exact Hal.
Qed.

Lemma load_selected_preset_aligned (E : Env) :
  preserves keeps_alignment (load_selected_preset E).
Proof.
  intros self Hal. pose proof (load_selected_preset_run E self) as Hrun.
  cbv zeta in Hrun. destruct (dict_get presets _) as [preset|e].
  - rewrite Hrun. unfold aligned. simpl. rewrite !length_map. reflexivity.
  - rewrite Hrun. exact Hal.
Qed.

Lemma handle_aligned {L : Libm} (E : Env) (ev : event) : preserves keeps_alignment (handle E ev).
Proof.
  destruct (keeps_bodies ev) eqn:Hev.
  - apply preserves_quiet_event; try apply _; try exact Hev;
      try (intros self v Hal; exact Hal).
    + intros P self bodies' _ HP Hal. unfold aligned in *. simpl.
      rewrite Hal. apply Forall2_length in HP. exact HP.
    + intros self i d Hal. unfold aligned in *. simpl.
      rewrite length_insert. exact Hal.
  - destruct ev; try discriminate; simpl.
    + apply load_selected_preset_aligned.
    + unfold reset_simulation. apply preserves_bind; [apply _ | | intros _].
      * apply preserves_modify. intros self Hal. exact Hal.
      * apply load_selected_preset_aligned.
    + apply preserves_bind; [apply _ | apply validate_new_body_aligned | intros shown].
      apply preserves_ret. apply _.
Qed.

(** At every state the window reaches, the two collections are aligned. *)
Lemma reachable_aligned {L : Libm} (E : Env) (evs : list event) : aligned (run E evs (init E)).
Proof.
  assert (Hinit : aligned (init E)).
  { unfold init. apply load_selected_preset_aligned. reflexivity. }
  unfold run. revert Hinit. generalize (init E).
  induction evs as [|ev evs IH]; intros self Hal; simpl; [exact Hal|].
  apply IH. unfold react. apply handle_aligned. exact Hal.
Qed.

(** C9. From a state where the trails and the bodies are aligned, they are
    aligned again after the add-body operation, whether it shows an error
    or not, and after a preset load: the body and its deque are appended in
    the same operation and the two collections are replaced together. *)
Theorem trails_aligned_with_bodies (E : Env) (self : App.t) :
  aligned self ->
  (forall entries : Entries.t,
     length (App.trails (state_of (validate_new_body E entries self))) =
     length (App.bodies (state_of (validate_new_body E entries self)))) /\
  length (App.trails (state_of (load_selected_preset E self))) =
  length (App.bodies (state_of (load_selected_preset E self))).
Proof.
  intros Hal. split.
  - intros entries. apply validate_new_body_aligned. exact Hal.
  - apply load_selected_preset_aligned. exact Hal.
Qed.

Lemma trails_aligned_with_bodies_witness :
  aligned (init desk) /\
  (forall entries : Entries.t,
     length (App.trails (state_of (validate_new_body desk entries (init desk)))) =
     length (App.bodies (state_of (validate_new_body desk entries (init desk))))) /\
  length (App.trails (state_of (load_selected_preset desk (init desk)))) =
  length (App.bodies (state_of (load_selected_preset desk (init desk)))).
Proof.
  split; [reflexivity|].
  apply (trails_aligned_with_bodies desk (init desk)). reflexivity.
Defined.

(** C4 (as amended). When one of the five numeric texts is not a number,
    the add-body operation shows the error and leaves the bodies and the
    trails as they were. When they all are numbers, whatever the mass (no
    comparison with 0 is made), the body is constructed and appended, and
    an empty deque of the current capacity is appended to the trails. *)
Theorem add_body_validation (E : Env) (entries : Entries.t) (self : App.t) :
  match parse_entries E entries with
  | Err e =>
      validate_new_body E entries self = Done (Some e) self
  | Ok (mass, x, y, vx, vy) =>
      App.bodies (state_of (validate_new_body E entries self)) =
        App.bodies self ++ [Body.init mass x y vx vy (Entries.cor entries)] /\
      App.trails (state_of (validate_new_body E entries self)) =
        App.trails self ++ [deque.new (App.trail_length self)]
  end.
Proof.
  pose proof (validate_new_body_run E entries self) as Hrun.
  destruct (parse_entries E entries) as [[[[[mass x] y] vx] vy]|e]; [|exact Hrun].
  destruct Hrun as [shown ->]. split; reflexivity.
Qed.

(** C4, as stated, fails: a body of mass 0 and a body of mass -5 are
    accepted without an error and appended with their deques. *)
Lemma nonpositive_mass_accepted :
  (exists self' b,
     validate_new_body desk massless_entries (init desk) = Done None self' /\
     length (App.bodies self') = S (length (App.bodies (init desk))) /\
     length (App.trails self') = S (length (App.trails (init desk))) /\
     last (App.bodies self') = Some b /\ Body.mass b = PyFloat 0) /\
  (exists self' b,
     validate_new_body desk negative_entries (init desk) = Done None self' /\
     length (App.bodies self') = S (length (App.bodies (init desk))) /\
     length (App.trails self') = S (length (App.trails (init desk))) /\
     last (App.bodies self') = Some b /\ Body.mass b = PyFloat (-5)).
Proof.
  split; eexists; eexists; (split; [vm_compute; reflexivity|]);
    repeat split; reflexivity.
Qed.

(** C5 (as amended). The previous position of a new body is
    position - velocity * DT with the module constant DT = 86400, the
    initial time step: the bodies that the add-body operation and a preset
    load construct do not depend on the time step configured in the
    window. *)
Theorem previous_position_bootstrap (mass x y vx vy : num) (color : string) :
  Body.prev_x (Body.init mass x y vx vy color) = nsub x (nmul vx DT) /\
  Body.prev_y (Body.init mass x y vx vy color) = nsub y (nmul vy DT) /\
  DT = PyFloat 86400 /\
  (forall (E : Env) (entries : Entries.t) (self : App.t) (dt : num),
     App.bodies (state_of (validate_new_body E entries (App.set_dt dt self))) =
     App.bodies (state_of (validate_new_body E entries self))) /\
  (forall (E : Env) (self : App.t) (dt : num),
     App.bodies (state_of (load_selected_preset E (App.set_dt dt self))) =
     App.bodies (state_of (load_selected_preset E self))).
Proof.
  split; [reflexivity|]. split; [reflexivity|]. split; [reflexivity|]. split.
  - intros E entries self dt.
    pose proof (validate_new_body_run E entries self) as H1.
    pose proof (validate_new_body_run E entries (App.set_dt dt self)) as H2.
    destruct (parse_entries E entries) as [[[[[m x0] y0] vx0] vy0]|e].
    + destruct H1 as [s1 ->]. destruct H2 as [s2 ->]. reflexivity.
    + rewrite H1, H2. reflexivity.
  - intros E self dt.
    pose proof (load_selected_preset_run E self) as H1.
    pose proof (load_selected_preset_run E (App.set_dt dt self)) as H2.
    destruct self as [bs running tl dt0 ts var].
    cbv zeta in H1, H2. unfold App.set_dt in H2.
    cbn [App.preset_var App.bodies App.is_running App.trail_length App.dt App.trails]
      in H1, H2.
    unfold App.set_dt.
    cbn [App.preset_var App.bodies App.is_running App.trail_length App.dt App.trails].
    destruct (dict_get presets _) as [preset|e]; rewrite H1, H2; reflexivity.
Qed.

(** C5, as stated, fails: with the time step set to 2 days (172800 s), a
    body added with velocity 1 m/s along x gets its previous position one
    day back (x - 86400), not one configured step back (x - 172800). *)
Lemma bootstrap_ignores_configured_dt :
  exists self' b,
    validate_new_body desk moving_entries (run desk [SlideDt (PyFloat 2)] (init desk))
      = Done None self' /\
    last (App.bodies self') = Some b /\
    App.dt self' = PyFloat 172800 /\
    Body.prev_x b = PyFloat (-86400) /\
    nsub (Body.x b) (nmul (Body.vx b) (App.dt self')) = PyFloat (-172800).
Proof.
  eexists; eexists. split; [vm_compute; reflexivity|].
  repeat split; reflexivity.
Qed.

(** ** Mass, velocity and color over the events *)

Lemma handle_identity {L : Libm} (E : Env) (ev : event) :
  keeps_bodies ev = true -> preserves keeps_identity (handle E ev).
Proof.
  intros Hev. apply preserves_quiet_event; try apply _; try exact Hev;
    try (intros self v; unfold keeps_identity; simpl; reflexivity);
    try (intros self i d; unfold keeps_identity; simpl; reflexivity).
  intros P self bodies' HP Hall. unfold keeps_identity. simpl.
  eapply Forall2_impl; [exact Hall|]. exact HP.
Qed.

Lemma run_identity {L : Libm} (E : Env) (evs : list event) (self : App.t) :
  Forall (fun ev => keeps_bodies ev = true) evs ->
  keeps_identity self (run E evs self).
Proof.
  intros Hevs. revert self. induction Hevs as [|ev evs Hev _ IH]; intros self; simpl.
  - reflexivity.
  - etransitivity; [|apply IH]. apply handle_identity. exact Hev.
Qed.

(** C10. [compute_forces] changes at most the acceleration of each body,
    [update_positions] at most the position and the previous position, both
    also when they raise; consequently, over any sequence of steps
    (with changes of the sliders and of the selection in between), every body
    keeps its mass, vx, vy and color. *)
Theorem physics_writes_are_framed {L : Libm} (E : Env) (evs : list event) (self : App.t) :
  Forall (fun ev => keeps_bodies ev = true) evs ->
  (forall bodies : list Body.t,
     Forall2 same_but_acceleration bodies (state_of (compute_forces bodies))) /\
  (forall (dt : num) (bodies : list Body.t),
     Forall2 same_but_position bodies (state_of (update_positions dt bodies))) /\
  Forall2 same_identity (App.bodies self) (App.bodies (run E evs self)).
Proof.
  intros Hevs. split; [|split].
  - apply compute_forces_frame.
  - intros dt. apply update_positions_frame.
  - apply run_identity. exact Hevs.
Qed.

Lemma physics_writes_are_framed_witness :
  Forall (fun ev => keeps_bodies ev = true)
         [ClickToggle; Timer; SlideDt (PyFloat 2); Timer; SlideTrail "50"; Timer] /\
  Forall2 same_identity
    (App.bodies (init desk))
    (App.bodies (run desk [ClickToggle; Timer; SlideDt (PyFloat 2); Timer; SlideTrail "50"; Timer]
                     (init desk))).
Proof.
  split; [repeat constructor|].
  apply (physics_writes_are_framed desk
           [ClickToggle; Timer; SlideDt (PyFloat 2); Timer; SlideTrail "50"; Timer]
           (init desk)).
  repeat constructor.
Defined.

(** ** Trails *)

Lemma ndiv_scale (a : num) : ndiv a SCALE_FACTOR = Ok (scaled a).
Proof. destruct a; reflexivity. Qed.

Lemma tail_drop {A : Type} (k : nat) (l : list A) : tail (drop k l) = drop (S k) l.
Proof.
  revert l. induction k as [|k IH]; intros [|a l]; simpl; try reflexivity.
  apply IH.
Qed.


Lemma trail_record_items (limit : nat) (s : sample) (d : deque.t) :
  deque.maxlen (trail_record limit s d) = deque.maxlen d /\
  deque.items (trail_record limit s d) =
    (if limit <? length (if deque.maxlen d <? length (deque.items d ++ [s])
                         then tail (deque.items d ++ [s]) else deque.items d ++ [s])
     then tail (if deque.maxlen d <? length (deque.items d ++ [s])
                then tail (deque.items d ++ [s]) else deque.items d ++ [s])
     else (if deque.maxlen d <? length (deque.items d ++ [s])
           then tail (deque.items d ++ [s]) else deque.items d ++ [s])).
Proof.
  unfold trail_record, deque.append, deque.len. simpl.
  destruct (limit <? _); split; reflexivity.
Qed.

(** One recording, for a deque that holds the last [c] samples of the
    history, [c] being the smaller of the limit and the capacity. *)
Lemma trail_record_step (limit : nat) (s : sample) (d : deque.t) (hist : list sample) :
  deque.items d = drop (length hist - Nat.min limit (deque.maxlen d)) hist ->
  deque.items (trail_record limit s d) =
    drop (length (hist ++ [s]) - Nat.min limit (deque.maxlen d)) (hist ++ [s]).
Proof.
  intros Hitems. destruct (trail_record_items limit s d) as [_ ->].
  rewrite Hitems. set (c := Nat.min limit (deque.maxlen d)).
  set (k := length hist - c).
  assert (Hk : k <= length hist) by (unfold k; lia).
  assert (Happ : drop k hist ++ [s] = drop k (hist ++ [s])).
  { rewrite drop_app_le by exact Hk. reflexivity. }
  assert (Hlen : length (drop k hist ++ [s]) = Nat.min (length hist) c + 1).
  { rewrite length_app, length_drop. simpl. unfold k. lia. }
  assert (Htail : tail (drop k hist ++ [s]) = drop (S k) (hist ++ [s])).
  { rewrite Happ. apply tail_drop. }
  assert (Hlen' : length (tail (drop k hist ++ [s])) = Nat.min (length hist) c).
  { rewrite Htail, length_drop, length_app. simpl. unfold k. lia. }
  assert (Hdrop : length (hist ++ [s]) = length hist + 1).
  { rewrite length_app. reflexivity. }
  destruct (deque.maxlen d <? length (drop k hist ++ [s])) eqn:H1.
  - apply Nat.ltb_lt in H1. rewrite Hlen in H1.
    destruct (limit <? length (tail (drop k hist ++ [s]))) eqn:H2.
    + apply Nat.ltb_lt in H2. rewrite Hlen' in H2. unfold c in *. lia.
    + rewrite Htail. f_equal. unfold k, c in *. lia.
  - apply Nat.ltb_ge in H1. rewrite Hlen in H1.
    destruct (limit <? length (drop k hist ++ [s])) eqn:H2.
    + apply Nat.ltb_lt in H2. rewrite Hlen in H2.
      rewrite Htail. f_equal. unfold k, c in *. lia.
    + apply Nat.ltb_ge in H2. rewrite Hlen in H2.
      rewrite Happ. f_equal. unfold k, c in *. lia.
Qed.

(** From an empty deque, with the limit unchanged, the deque holds exactly
    the last [min limit maxlen] samples, in order. *)
Lemma records_from_empty (limit m : nat) (samples : list sample) :
  deque.items (records limit samples (deque.new m)) =
    drop (length samples - Nat.min limit m) samples /\
  deque.maxlen (records limit samples (deque.new m)) = m.
Proof.
  induction samples as [|s samples IH] using rev_ind.
  - simpl. split; reflexivity.
  - unfold records in *. rewrite fold_left_app. simpl.
    destruct IH as [IHi IHm]. split.
    + rewrite <- IHm at 2. apply trail_record_step. rewrite IHm. exact IHi.
    + destruct (trail_record_items limit s
                  (fold_left (fun d s => trail_record limit s d) samples (deque.new m)))
        as [-> _]. exact IHm.
Qed.

(** ** The simulation step *)

Lemma set_trails_twice (v w : list deque.t) (self : App.t) :
  App.set_trails v (App.set_trails w self) = App.set_trails v self.
Proof. reflexivity. Qed.

Lemma trails_set_trails (v : list deque.t) (self : App.t) :
  App.trails (App.set_trails v self) = v.
Proof. reflexivity. Qed.

Lemma record_trail_run (self : App.t) (i : nat) (body : Body.t) (d : deque.t) :
  App.bodies self !! i = Some body -> App.trails self !! i = Some d ->
  record_trail i self =
  Done tt (App.set_trails
             (<[i := trail_record (App.trail_length self) (trail_sample body) d]>
                (App.trails self)) self).
Proof.
  intros Hb Hd.
  assert (Hi : i < length (App.trails self)) by (apply lookup_lt_is_Some; eauto).
  unfold record_trail, bind, on_bodies, body_at. rewrite Hb, set_bodies_same.
  unfold trail_at at 1. rewrite Hd. rewrite !ndiv_scale.
  unfold lift, store_trail, modify, gets, trail_at.
  rewrite !trails_set_trails.
  rewrite list_lookup_insert_eq by exact Hi.
  change (App.trail_length (App.set_trails _ self)) with (App.trail_length self).
  unfold trail_record, trail_sample.
  destruct (App.trail_length self <? deque.len (deque.append _ d)) eqn:Hlong.
  - cbv beta. rewrite ?trails_set_trails.
    rewrite list_lookup_insert_eq by exact Hi.
    unfold deque.popleft.
    destruct (deque.items (deque.append (scaled (Body.x body), scaled (Body.y body)) d))
      as [|s0 l] eqn:Hitems.
    + apply Nat.ltb_lt in Hlong. unfold deque.len in Hlong. rewrite Hitems in Hlong.
      simpl in Hlong. lia.
    + rewrite trails_set_trails, list_insert_insert_eq. reflexivity.
  - reflexivity.
Qed.

Lemma record_trails_from (brest : list Body.t) :
  forall (trest : list deque.t) (bpre : list Body.t) (tpre : list deque.t) (self : App.t),
    length bpre = length tpre -> length brest = length trest ->
    App.bodies self = bpre ++ brest -> App.trails self = tpre ++ trest ->
    for_each (seq (length bpre) (length brest)) record_trail self =
    Done tt (App.set_trails
               (tpre ++ zip_with (fun b d => trail_record (App.trail_length self)
                                               (trail_sample b) d) brest trest)
               self).
Proof.
  induction brest as [|b brest IH]; intros trest bpre tpre self Hpre Hrest Hbs Hts.
  - destruct trest; [|discriminate]. simpl. rewrite app_nil_r in *.
    rewrite <- Hts. destruct self; reflexivity.
  - destruct trest as [|d trest]; [discriminate|]. simpl.
    unfold bind. erewrite record_trail_run.
    2: { rewrite Hbs. apply list_lookup_middle. reflexivity. }
    2: { rewrite Hts. apply list_lookup_middle. exact Hpre. }
    set (d' := trail_record (App.trail_length self) (trail_sample b) d).
    replace (S (length bpre)) with (length (bpre ++ [b]))
      by (rewrite length_app; simpl; lia).
    erewrite (IH trest (bpre ++ [b]) (tpre ++ [d'])).
    + rewrite set_trails_twice, <- app_assoc. reflexivity.
    + rewrite !length_app. simpl. lia.
    + simpl in Hrest. lia.
    + simpl. rewrite Hbs, <- app_assoc. reflexivity.
    + rewrite trails_set_trails, Hts, Hpre.
      rewrite <- (Nat.add_0_r (length tpre)), insert_app_r, <- app_assoc.
      reflexivity.
Qed.

Lemma on_bodies_done {A : Type} (m : M (list Body.t) A) (self : App.t) (a : A)
    (bodies' : list Body.t) :
  m (App.bodies self) = Done a bodies' ->
  on_bodies m self = Done a (App.set_bodies bodies' self).
Proof. intros H. unfold on_bodies. rewrite H. reflexivity. Qed.

Lemma Forall2_same_length {P : Body.t -> Body.t -> Prop} (m : M (list Body.t) unit)
    (bodies bodies' : list Body.t) :
  preserves (Forall2 P) m -> m bodies = Done tt bodies' -> length bodies' = length bodies.
Proof.
  intros Hm Hrun. specialize (Hm bodies). rewrite Hrun in Hm. simpl in Hm.
  symmetry. eapply Forall2_length, Hm.
Qed.

(** When the force computation raises, the step stops there: no position
    is integrated and nothing is recorded. *)
Lemma run_simulation_aborts {L : Libm} (E : Env) (self : App.t) (e : exn) (bodies1 : list Body.t) :
  App.is_running self = true ->
  compute_forces (App.bodies self) = Raised e bodies1 ->
  run_simulation E self = Raised e (App.set_bodies bodies1 self).
Proof.
  intros Hrun Hf. unfold run_simulation, bind, gets. rewrite Hrun.
  unfold on_bodies at 1. rewrite Hf. reflexivity.
Qed.

(** C6 (as amended). A simulation step (the window is running, the two
    collections are aligned) whose force computation and integration
    complete runs [compute_forces] on the bodies, then [update_positions]
    with the current dt on the result, then records for every body, into
    the deque of the same index, the new position divided by
    SCALE_FACTOR = 1e9 (both coordinates), with the trail length as
    limit; nothing else changes. *)
Theorem simulation_step {L : Libm} (E : Env) (self : App.t) (bodies1 bodies2 : list Body.t) :
  App.is_running self = true -> aligned self ->
  compute_forces (App.bodies self) = Done tt bodies1 ->
  update_positions (App.dt self) bodies1 = Done tt bodies2 ->
  state_of (run_simulation E self) =
    App.set_trails
      (zip_with (fun b d => trail_record (App.trail_length self) (trail_sample b) d)
                bodies2 (App.trails self))
      (App.set_bodies bodies2 self) /\
  length bodies2 = length (App.bodies self) /\
  (forall b : Body.t,
     ndiv (Body.x b) SCALE_FACTOR = Ok (trail_sample b).1 /\
     ndiv (Body.y b) SCALE_FACTOR = Ok (trail_sample b).2) /\
  SCALE_FACTOR = PyFloat 1e9.
Proof.
  intros Hrun Hal Hf Hp.
  assert (H1 : length bodies1 = length (App.bodies self)).
  { eapply Forall2_same_length; [apply compute_forces_frame|exact Hf]. }
  assert (H2 : length bodies2 = length bodies1).
  { eapply Forall2_same_length; [apply update_positions_frame|exact Hp]. }
  split; [|split; [lia|split; [|reflexivity]]].
  - unfold run_simulation, bind, gets. rewrite Hrun.
    rewrite (on_bodies_done _ _ tt bodies1 Hf). cbv beta.
    change (App.dt (App.set_bodies bodies1 self)) with (App.dt self).
    rewrite (on_bodies_done (update_positions _) (App.set_bodies bodies1 self) tt bodies2 Hp).
    unfold range. rewrite Nat.sub_0_r.
    change (App.set_bodies bodies2 (App.set_bodies bodies1 self))
      with (App.set_bodies bodies2 self).
    change (length (App.bodies (App.set_bodies bodies2 self))) with (length bodies2).
    assert (Hloop := record_trails_from bodies2 (App.trails self) [] []
                       (App.set_bodies bodies2 self) eq_refl).
    simpl in Hloop. rewrite Hloop; [ | unfold aligned in Hal; lia | reflexivity | reflexivity ].
    match goal with |- context [update_plot E ?a] =>
      destruct (update_plot_run E a) as [->|[e ->]] end; reflexivity.
  - intros b. split; apply ndiv_scale.
Qed.

Lemma simulation_step_witness :
  exists bodies1 bodies2 : list Body.t,
    (App.is_running (run desk [ClickToggle] (init desk)) = true /\
     aligned (run desk [ClickToggle] (init desk)) /\
     compute_forces (App.bodies (run desk [ClickToggle] (init desk))) = Done tt bodies1 /\
     update_positions (App.dt (run desk [ClickToggle] (init desk))) bodies1
       = Done tt bodies2) /\
    state_of (run_simulation desk (run desk [ClickToggle] (init desk))) =
      App.set_trails
        (zip_with (fun b d => trail_record
                                (App.trail_length (run desk [ClickToggle] (init desk)))
                                (trail_sample b) d)
                  bodies2 (App.trails (run desk [ClickToggle] (init desk))))
        (App.set_bodies bodies2 (run desk [ClickToggle] (init desk))).
Proof.
  let o1 := eval vm_compute in
    (compute_forces (App.bodies (run desk [ClickToggle] (init desk)))) in
  match o1 with
  | Done _ ?b1 =>
      let o2 := eval vm_compute in
        (update_positions (App.dt (run desk [ClickToggle] (init desk))) b1) in
      match o2 with
      | Done _ ?b2 =>
          exists b1, b2;
          assert (Hhyp : App.is_running (run desk [ClickToggle] (init desk)) = true /\
                         aligned (run desk [ClickToggle] (init desk)) /\
                         compute_forces (App.bodies (run desk [ClickToggle] (init desk)))
                           = Done tt b1 /\
                         update_positions (App.dt (run desk [ClickToggle] (init desk))) b1
                           = Done tt b2)
            by (repeat split; vm_compute; reflexivity);
          split; [exact Hhyp|];
          destruct Hhyp as (Hr & Ha & Hf & Hp);
          exact (proj1 (simulation_step desk (run desk [ClickToggle] (init desk))
                          b1 b2 Hr Ha Hf Hp))
      end
  end.
Defined.

(** C6, as stated, fails: after the first step of the first preset, the
    sample recorded for the second body is its position divided by 1e9, not
    the value of its position field. *)
Lemma recorded_sample_is_scaled :
  exists (b : Body.t) (d : deque.t) (s : sample),
    App.bodies (run desk [ClickToggle] (init desk)) !! 1 = Some b /\
    App.trails (run desk [ClickToggle] (init desk)) !! 1 = Some d /\
    last (deque.items d) = Some s /\
    s = trail_sample b /\
    PrimFloat.eqb (val s.1) (val (Body.x b)) = false /\
    PrimFloat.eqb (val s.2) (val (Body.y b)) = false.
Proof.
  eexists; eexists; eexists.
  split; [vm_compute; reflexivity|]. split; [vm_compute; reflexivity|].
  split; [vm_compute; reflexivity|]. repeat split; vm_compute; reflexivity.
Qed.

(** ** Changing the trail length *)


(** C8 fails on the code. The command of the trail slider converts the text
    of the slider's value with [int]: on the text of a real number, 50.0,
    the conversion raises ValueError and nothing is stored; on the text of
    an integer, 50 is stored and no deque is touched, and the check of
    lines 204-205 then removes one sample per step after one is appended,
    so that after 70 more steps every deque still holds 99 samples. *)
Theorem shrinking_keeps_long_trails :
  map deque.len (App.trails hundred_steps) = [100; 100; 100; 100] /\
  handle desk (SlideTrail "50.0") hundred_steps = Raised ValueError hundred_steps /\
  App.trail_length hundred_steps = 100 /\
  App.trail_length (run desk [SlideTrail "50"] hundred_steps) = 50 /\
  App.trails (run desk [SlideTrail "50"] hundred_steps) = App.trails hundred_steps /\
  map deque.len (App.trails (run desk (SlideTrail "50" :: repeat Timer 70) hundred_steps))
    = [99; 99; 99; 99].
Proof.
  split; [vm_compute; reflexivity|]. split; [vm_compute; reflexivity|].
  split; [vm_compute; reflexivity|]. split; [vm_compute; reflexivity|].
  split; vm_compute; reflexivity.
Qed.

(** * Further properties of the code *)

(** ** compute_forces: when it completes and what it raises *)

Lemma float_pow2_error {L : Libm} (v : float) (e : exn) :
  float_pow2 v = Err e -> e = OverflowError.
Proof.
  unfold float_pow2.
  repeat match goal with
  | |- context [if ?c then _ else _] => destruct c
  | |- context [let '(_, _) := ?p in _] => destruct p
  end; intros Heq; inversion Heq; reflexivity.
Qed.

Lemma npow2_error {L : Libm} (a : num) (e : exn) : npow2 a = Err e -> e = OverflowError.
Proof.
  destruct a as [v|v]; simpl; [|discriminate].
  destruct (float_pow2 v) as [s|e'] eqn:Hv; simpl; [discriminate|].
  intros Heq. inversion Heq; subst. eapply float_pow2_error, Hv.
Qed.

Lemma ndiv_error (a b : num) (e : exn) : ndiv a b = Err e -> e = ZeroDivisionError.
Proof.
  destruct a as [u|u], b as [v|v]; simpl; try discriminate.
  destruct (PrimFloat.is_zero v); [|discriminate]. intros H. inversion H. reflexivity.
Qed.

Lemma pair_force_error {L : Libm} (bi bj : Body.t) (e : exn) :
  pair_force bi bj = Err e -> e = ZeroDivisionError \/ e = OverflowError.
Proof.
  unfold pair_force, rbind.
  repeat match goal with
  | |- context [match npow2 ?a with _ => _ end] =>
      let H := fresh "H" in
      destruct (npow2 a) eqn:H;
        [|intros Heq; inversion Heq; subst; right; exact (npow2_error _ _ H)]
  | |- context [match ndiv ?a ?b with _ => _ end] =>
      let H := fresh "H" in
      destruct (ndiv a b) eqn:H;
        [|intros Heq; inversion Heq; subst; left; exact (ndiv_error _ _ _ H)]
  end.
  discriminate.
Qed.

Lemma interact_raises {L : Libm} (bodies : list Body.t) (i j : nat) (bi bj : Body.t) (e : exn) :
  bodies !! i = Some bi -> bodies !! j = Some bj -> pair_force bi bj = Err e ->
  interact i j bodies = Raised e bodies.
Proof.
  intros Hi Hj Hf. unfold interact, bind, body_at, lift. rewrite Hj, Hi, Hf. reflexivity.
Qed.

(** One visit, after the pairs [done]. *)
Lemma interact_one {L : Libm} (bodies : list Body.t) (done : list (nat * nat)) (i j : nat)
    (bi bj : Body.t) (f : num * num) :
  i < j < length bodies -> bodies !! i = Some bi -> bodies !! j = Some bj ->
  pair_force bi bj = Ok f ->
  interact i j (imap (fun k b => fold_left (felt bodies k) done (cleared b)) bodies)
  = Done tt (imap (fun k b => fold_left (felt bodies k) (done ++ [(i, j)]) (cleared b)) bodies).
Proof.
  intros Hij Hi Hj Hf.
  pose proof (interact_all bodies [(i, j)] done) as Hone.
  simpl in Hone. unfold bind, ret in Hone.
  destruct (interact i j _) as [[] s1|e1 s1]; apply Hone.
  - intros i' j' bi' bj' [Heq|[]] Hi' Hj'. inversion Heq; subst.
    split; [lia|]. exists f. congruence.
  - intros i' j' [Heq|[]]. inversion Heq; subst. exact Hij.
  - intros i' j' bi' bj' [Heq|[]] Hi' Hj'. inversion Heq; subst.
    split; [lia|]. exists f. congruence.
  - intros i' j' [Heq|[]]. inversion Heq; subst. exact Hij.
Qed.

(** The loop over the pairs stops at the first pair whose force raises. *)
Lemma interact_stops {L : Libm} (bodies : list Body.t) (todo : list (nat * nat)) :
  forall done : list (nat * nat),
    (forall i j, In (i, j) todo -> i < j < length bodies) ->
    (exists i j bi bj e, In (i, j) todo /\ bodies !! i = Some bi /\
                         bodies !! j = Some bj /\ pair_force bi bj = Err e) ->
    exists e s,
      for_each todo (fun p => interact p.1 p.2)
        (imap (fun k b => fold_left (felt bodies k) done (cleared b)) bodies)
      = Raised e s /\
      (e = ZeroDivisionError \/ e = OverflowError).
Proof.
  induction todo as [|[i j] todo IH]; intros done Hin Hbad.
  - destruct Hbad as (? & ? & ? & ? & ? & [] & _).
  - destruct (Hin i j (or_introl eq_refl)) as [Hij Hj].
    destruct (lookup_lt_is_Some_2 bodies i ltac:(lia)) as [bi Hbi].
    destruct (lookup_lt_is_Some_2 bodies j Hj) as [bj Hbj].
    simpl. unfold bind.
    destruct (pair_force bi bj) as [f|e] eqn:Hf.
    + rewrite (interact_one bodies done i j bi bj f) by (auto; lia).
      apply (IH (done ++ [(i, j)])).
      * intros i' j' H'. apply Hin. right. exact H'.
      * destruct Hbad as (i' & j' & bi' & bj' & e' & [Heq|Hin'] & Hi' & Hj' & Hf').
        -- inversion Heq; subst. congruence.
        -- exists i', j', bi', bj', e'. auto.
    + erewrite interact_raises.
      * exists e. eexists. split; [reflexivity|]. eapply pair_force_error, Hf.
      * rewrite list_lookup_imap, Hbi. simpl. reflexivity.
      * rewrite list_lookup_imap, Hbj. simpl. reflexivity.
      * rewrite <- Hf. apply pair_force_frame; apply felt_all_frame.
Qed.

Lemma compute_forces_loop {L : Libm} (bodies : list Body.t) :
  compute_forces bodies =
  for_each (pairs (length bodies)) (fun p => interact p.1 p.2)
    (imap (fun k b => fold_left (felt bodies k) [] (cleared b)) bodies).
Proof.
  rewrite compute_forces_pairs. unfold bind. rewrite clear_all.
  f_equal. apply list_eq. intros k.
  rewrite list_lookup_imap, list_lookup_fmap. reflexivity.
Qed.

Lemma forces_all_or_one {L : Libm} (bodies : list Body.t) (ps : list (nat * nat)) :
  (forall i j, In (i, j) ps -> i < j < length bodies) ->
  (forall i j bi bj, In (i, j) ps -> bodies !! i = Some bi -> bodies !! j = Some bj ->
                     exists f, pair_force bi bj = Ok f) \/
  (exists i j bi bj e, In (i, j) ps /\ bodies !! i = Some bi /\
                       bodies !! j = Some bj /\ pair_force bi bj = Err e).
Proof.
  induction ps as [|[i j] ps IH]; intros Hin.
  - left. intros i j bi bj [].
  - destruct IH as [Hall|Hone].
    + intros i' j' H'. apply Hin. right. exact H'.
    + destruct (Hin i j (or_introl eq_refl)) as [Hij Hj].
      destruct (lookup_lt_is_Some_2 bodies i ltac:(lia)) as [bi Hbi].
      destruct (lookup_lt_is_Some_2 bodies j Hj) as [bj Hbj].
      destruct (pair_force bi bj) as [f|e] eqn:Hf.
      * left. intros i' j' bi' bj' [Heq|H'] Hi' Hj'.
        -- inversion Heq; subst. exists f. congruence.
        -- eapply Hall; eassumption.
      * right. exists i, j, bi, bj, e. simpl. auto.
    + right. destruct Hone as (i' & j' & bi' & bj' & e & H' & Hrest).
      exists i', j', bi', bj', e. split; [right; exact H'|exact Hrest].
Qed.

(** [compute_forces] completes exactly when the force of every pair i < j
    can be computed; otherwise it raises, and what it raises is the
    ZeroDivisionError of line 39 or the OverflowError of a square of
    line 36: never an IndexError. *)
Theorem compute_forces_completion {L : Libm} (bodies : list Body.t) :
  ((exists bodies', compute_forces bodies = Done tt bodies') <->
   (forall i j bi bj, i < j -> bodies !! i = Some bi -> bodies !! j = Some bj ->
                      exists f, pair_force bi bj = Ok f)) /\
  (forall e s, compute_forces bodies = Raised e s ->
               e = ZeroDivisionError \/ e = OverflowError).
Proof.
  assert (Hin : forall i j, In (i, j) (pairs (length bodies)) -> i < j < length bodies).
  { intros i j H. apply in_pairs. exact H. }
  destruct (forces_all_or_one bodies (pairs (length bodies)) Hin) as [Hall|Hone].
  - assert (Hok : forall i j bi bj, i < j -> bodies !! i = Some bi ->
                    bodies !! j = Some bj -> exists f, pair_force bi bj = Ok f).
    { intros i j bi bj Hij Hi Hj. apply (Hall i j); [|assumption..].
      apply in_pairs. split; [exact Hij|]. apply lookup_lt_is_Some. eauto. }
    rewrite (compute_forces_accelerated bodies Hok). split.
    + split; [intros _; exact Hok|intros _; eexists; reflexivity].
    + intros e s H. discriminate.
  - destruct (interact_stops bodies (pairs (length bodies)) [] Hin Hone)
      as (e & s & Hrun & He).
    rewrite compute_forces_loop, Hrun. split.
    + split.
      * intros [bodies' H]. discriminate.
      * intros Hok. destruct Hone as (i & j & bi & bj & e' & H' & Hi & Hj & Hf).
        destruct (Hok i j bi bj) as [f Hf']; [apply Hin in H'; lia|assumption..|].
        congruence.
    + intros e' s' H. inversion H; subst. exact He.
Qed.

(** When no pair raises, [compute_forces] leaves on every body the
    contributions of its pairs, accumulated from zero in the order of the
    loops: for body k, the pairs (0,k), ..., (k-1,k) subtract the force over
    its mass, then the pairs (k,k+1), ..., (k,n-1) add it; everything but
    the acceleration is as before. *)
Theorem forces_in_closed_form {L : Libm} (bodies : list Body.t) :
  (forall i j bi bj, i < j -> bodies !! i = Some bi -> bodies !! j = Some bj ->
                     exists f, pair_force bi bj = Ok f) ->
  compute_forces bodies = Done tt (accelerated bodies) /\
  length (accelerated bodies) = length bodies /\
  forall (k : nat) (b : Body.t), bodies !! k = Some b ->
    accelerated bodies !! k =
      Some (fold_left (felt bodies k) (pairs (length bodies)) (cleared b)) /\
    Body.ax (cleared b) = PyFloat 0 /\ Body.ay (cleared b) = PyFloat 0 /\
    (forall (c : Body.t) (i j : nat) (bi bj : Body.t) (fx fy : num),
       bodies !! i = Some bi -> bodies !! j = Some bj ->
       pair_force bi bj = Ok (fx, fy) ->
       felt bodies k c (i, j) =
         if i =? k then pushed fx fy c else if j =? k then pulled fx fy c else c).
Proof.
  intros Hok. split; [apply compute_forces_accelerated, Hok|].
  split; [apply length_imap|].
  intros k b Hk. split.
  - unfold accelerated. rewrite list_lookup_imap, Hk. reflexivity.
  - split; [reflexivity|]. split; [reflexivity|].
    intros c i j bi bj fx fy Hi Hj Hf. apply (felt_visit _ _ _ i j bi bj); assumption.
Qed.

Lemma forces_in_closed_form_witness :
  (forall i j bi bj, i < j -> earth_moon !! i = Some bi -> earth_moon !! j = Some bj ->
                     exists f, pair_force bi bj = Ok f) /\
  compute_forces earth_moon = Done tt (accelerated earth_moon).
Proof.
  assert (Hok : forall i j bi bj, i < j -> earth_moon !! i = Some bi ->
                  earth_moon !! j = Some bj -> exists f, pair_force bi bj = Ok f).
  { intros i j bi bj Hij Hi Hj.
    destruct i as [|[|i]], j as [|[|j]]; simpl in Hi, Hj; try lia; try discriminate.
    inversion Hi; inversion Hj; subst. eexists. vm_compute. reflexivity. }
  split; [exact Hok|].
  exact (proj1 (forces_in_closed_form earth_moon Hok)).
Defined.



(** With no body or a single one, [compute_forces] never raises: it only
    sets the acceleration to zero. *)
Theorem lone_body_feels_nothing {L : Libm} (bodies : list Body.t) :
  length bodies <= 1 ->
  compute_forces bodies = Done tt (map cleared bodies).
Proof.
  intros Hlen. destruct bodies as [|b [|b2 bodies]]; simpl in Hlen; try lia; reflexivity.
Qed.

Lemma lone_body_feels_nothing_witness :
  length [earth] <= 1 /\ compute_forces [earth] = Done tt [cleared earth].
Proof.
  split; [simpl; lia|]. apply (lone_body_feels_nothing [earth]). simpl. lia.
Defined.

(** *** Stale accelerations *)

Lemma cleared_same (b b' : Body.t) :
  same_but_acceleration b b' -> cleared b' = cleared b.
Proof.
  unfold same_but_acceleration. destruct b, b'; simpl.
  intros (-> & -> & -> & -> & -> & -> & -> & ->). reflexivity.
Qed.

Lemma map_cleared_same (bodies bodies' : list Body.t) :
  Forall2 same_but_acceleration bodies bodies' ->
  map cleared bodies' = map cleared bodies.
Proof.
  induction 1 as [|b b' bodies bodies' Hb _ IH]; simpl; [reflexivity|].
  rewrite IH, (cleared_same b b' Hb). reflexivity.
Qed.

(** The accelerations found in the bodies play no part: two lists that
    differ in the accelerations only give the same outcome, the same raised
    exception included; so running [compute_forces] again on its own result
    changes nothing. *)
Theorem stale_accelerations_ignored {L : Libm} (bodies bodies' : list Body.t) :
  Forall2 same_but_acceleration bodies bodies' ->
  compute_forces bodies' = compute_forces bodies /\
  compute_forces (state_of (compute_forces bodies)) = compute_forces bodies.
Proof.
  assert (Hsame : forall l l', Forall2 same_but_acceleration l l' ->
                               compute_forces l' = compute_forces l).
  { intros l l' H. rewrite !compute_forces_pairs. unfold bind.
    rewrite !clear_all, (map_cleared_same l l' H), (Forall2_length _ _ _ H).
    reflexivity. }
  intros H. split; [apply Hsame, H|].
  apply Hsame. apply compute_forces_frame.
Qed.

Lemma stale_accelerations_ignored_witness :
  Forall2 same_but_acceleration earth_moon (state_of (compute_forces earth_moon)) /\
  compute_forces (state_of (compute_forces earth_moon)) = compute_forces earth_moon.
Proof.
  split; [apply compute_forces_frame|].
  exact (proj1 (stale_accelerations_ignored earth_moon
                  (state_of (compute_forces earth_moon))
                  (compute_forces_frame earth_moon))).
Defined.

(** ** numpy scalars: where they come from and what they prevent *)

Lemma is_np_binop_l (op : float -> float -> float) (a b : num) :
  is_np a = true -> is_np (binop op a b) = true.
Proof. destruct a, b; simpl; intros H; try discriminate; reflexivity. Qed.

Lemma is_np_binop_r (op : float -> float -> float) (a b : num) :
  is_np b = true -> is_np (binop op a b) = true.
Proof. destruct a, b; simpl; intros H; try discriminate; reflexivity. Qed.

Lemma npow2_np {L : Libm} (a : num) :
  is_np a = true -> exists c, npow2 a = Ok c /\ is_np c = true.
Proof.
  destruct a as [v|v]; simpl; intros H; [discriminate|].
  eexists. split; reflexivity.
Qed.

Lemma ndiv_np_divisor (a b : num) :
  is_np b = true -> exists c, ndiv a b = Ok c /\ is_np c = true.
Proof.
  destruct a, b; simpl; intros H; try discriminate; eexists; split; reflexivity.
Qed.

(** A pair with a body whose position is in numpy scalars never raises:
    line 39 then divides a float by a numpy scalar. *)
Lemma pair_force_numpy {L : Libm} (bi bj : Body.t) :
  np_position bi \/ np_position bj -> exists f, pair_force bi bj = Ok f.
Proof.
  intros Hnp.
  assert (Hdx : is_np (nsub (Body.x bj) (Body.x bi)) = true).
  { destruct Hnp as [[H _]|[H _]];
      [apply is_np_binop_r|apply is_np_binop_l]; exact H. }
  assert (Hdy : is_np (nsub (Body.y bj) (Body.y bi)) = true).
  { destruct Hnp as [[_ H]|[_ H]];
      [apply is_np_binop_r|apply is_np_binop_l]; exact H. }
  unfold pair_force. cbv zeta.
  destruct (npow2_np _ Hdx) as (dx2 & -> & Hdx2).
  destruct (npow2_np _ Hdy) as (dy2 & -> & Hdy2).
  cbn [rbind].
  destruct (ndiv_np_divisor (nmul (nmul G (Body.mass bi)) (Body.mass bj)) (nadd dx2 dy2))
    as (F & -> & _); [apply is_np_binop_l; exact Hdx2|].
  cbn [rbind].
  destruct (ndiv_np_divisor (nmul F (nsub (Body.x bj) (Body.x bi)))
              (nadd (np_sqrt (nadd dx2 dy2)) (PyFloat 1e-10)))
    as (fx & -> & _); [apply is_np_binop_l; reflexivity|].
  cbn [rbind].
  destruct (ndiv_np_divisor (nmul F (nsub (Body.y bj) (Body.y bi)))
              (nadd (np_sqrt (nadd dx2 dy2)) (PyFloat 1e-10)))
    as (fy & -> & _); [apply is_np_binop_l; reflexivity|].
  cbn [rbind]. eexists. reflexivity.
Qed.

(** When in every pair at least one body has its position in numpy scalars
    (all bodies but at most one newly added), [compute_forces] completes,
    coincident positions included. *)
Theorem numpy_positions_never_raise {L : Libm} (bodies : list Body.t) :
  (forall i j bi bj, i < j -> bodies !! i = Some bi -> bodies !! j = Some bj ->
                     np_position bi \/ np_position bj) ->
  compute_forces bodies = Done tt (accelerated bodies).
Proof.
  intros Hnp. apply compute_forces_accelerated.
  intros i j bi bj Hij Hi Hj. apply pair_force_numpy. eapply Hnp; eassumption.
Qed.

Lemma numpy_positions_never_raise_witness :
  (forall i j bi bj, i < j -> [ghost; ghost] !! i = Some bi ->
                     [ghost; ghost] !! j = Some bj ->
                     np_position bi \/ np_position bj) /\
  compute_forces [ghost; ghost] = Done tt (accelerated [ghost; ghost]).
Proof.
  assert (Hnp : forall i j bi bj, i < j -> [ghost; ghost] !! i = Some bi ->
                  [ghost; ghost] !! j = Some bj -> np_position bi \/ np_position bj).
  { intros i j bi bj Hij Hi Hj.
    destruct i as [|[|i]]; simpl in Hi; try discriminate;
      inversion Hi; subst; left; split; reflexivity. }
  split; [exact Hnp|]. exact (numpy_positions_never_raise [ghost; ghost] Hnp).
Defined.

(** *** The accelerations of a system of two bodies or more are numpy
    scalars, and so are the positions after the step *)

Lemma felt_keeps_np {L : Libm} (bodies : list Body.t) (k : nat) (c : Body.t) (p : nat * nat) :
  np_acceleration c -> np_acceleration (felt bodies k c p).
Proof.
  intros [Hx Hy]. unfold felt.
  destruct (bodies !! p.1); [|split; assumption].
  destruct (bodies !! p.2); [|split; assumption].
  destruct (pair_force _ _) as [[fx fy]|]; [|split; assumption].
  destruct (p.1 =? k); [split; reflexivity || (apply is_np_binop_r; reflexivity)|].
  destruct (p.2 =? k); [split; apply is_np_binop_r; reflexivity|split; assumption].
Qed.

Lemma felt_makes_np {L : Libm} (bodies : list Body.t) (k : nat) (c : Body.t) (i j : nat)
    (bi bj : Body.t) (f : num * num) :
  involves k (i, j) -> bodies !! i = Some bi -> bodies !! j = Some bj ->
  pair_force bi bj = Ok f -> np_acceleration (felt bodies k c (i, j)).
Proof.
  intros Hk Hi Hj Hf. destruct f as [fx fy].
  rewrite (felt_visit _ _ _ i j bi bj fx fy) by assumption.
  destruct (i =? k) eqn:Hik; [split; apply is_np_binop_r; reflexivity|].
  destruct (j =? k) eqn:Hjk; [split; apply is_np_binop_r; reflexivity|].
  apply Nat.eqb_neq in Hik, Hjk. destruct Hk as [Hk|Hk]; simpl in Hk; congruence.
Qed.

Lemma felt_all_np {L : Libm} (bodies : list Body.t) (k : nat) (ps : list (nat * nat)) :
  forall c : Body.t,
    (np_acceleration c \/
     exists i j bi bj f, In (i, j) ps /\ involves k (i, j) /\ bodies !! i = Some bi /\
                         bodies !! j = Some bj /\ pair_force bi bj = Ok f) ->
    np_acceleration (fold_left (felt bodies k) ps c).
Proof.
  induction ps as [|p ps IH]; intros c H; simpl.
  - destruct H as [H|(? & ? & ? & ? & ? & [] & _)]. exact H.
  - apply IH. destruct H as [H|(i & j & bi & bj & f & [Heq|Hin] & Hk & Hi & Hj & Hf)].
    + left. apply felt_keeps_np, H.
    + left. subst p. eapply felt_makes_np; eassumption.
    + right. exists i, j, bi, bj, f. auto.
Qed.

Lemma accelerated_np {L : Libm} (bodies : list Body.t) :
  2 <= length bodies ->
  (forall i j bi bj, i < j -> bodies !! i = Some bi -> bodies !! j = Some bj ->
                     exists f, pair_force bi bj = Ok f) ->
  Forall np_acceleration (accelerated bodies).
Proof.
  intros Hlen Hok. apply Forall_lookup. intros k c Hc.
  unfold accelerated in Hc. rewrite list_lookup_imap in Hc.
  destruct (bodies !! k) as [b|] eqn:Hb; [|discriminate].
  simpl in Hc. inversion Hc; subst c. clear Hc.
  assert (Hk : k < length bodies) by (apply lookup_lt_is_Some; eauto).
  apply felt_all_np. right.
  destruct k as [|k].
  - destruct (lookup_lt_is_Some_2 bodies 1 ltac:(lia)) as [b1 Hb1].
    destruct (Hok 0 1 b b1 ltac:(lia) Hb Hb1) as [f Hf].
    exists 0, 1, b, b1, f. split; [apply in_pairs; lia|].
    split; [left; reflexivity|auto].
  - destruct (lookup_lt_is_Some_2 bodies 0 ltac:(lia)) as [b0 Hb0].
    destruct (Hok 0 (S k) b0 b ltac:(lia) Hb0 Hb) as [f Hf].
    exists 0, (S k), b0, b, f. split; [apply in_pairs; lia|].
    split; [right; reflexivity|auto].
Qed.

Lemma verlet_np (dt2 : num) (b : Body.t) :
  np_acceleration b \/ np_position b -> np_position (verlet dt2 b).
Proof.
  intros [[Hx Hy]|[Hx Hy]]; split; unfold verlet; cbn [Body.x Body.y].
  - apply is_np_binop_r, is_np_binop_l, Hx.
  - apply is_np_binop_r, is_np_binop_l, Hy.
  - apply is_np_binop_l, is_np_binop_l, is_np_binop_r, Hx.
  - apply is_np_binop_l, is_np_binop_l, is_np_binop_r, Hy.
Qed.

(** [update_positions] when the square of dt raises: the first body
    stops the loop, and nothing is written. *)
Lemma update_positions_overflow {L : Libm} (dt : num) (e : exn) (b : Body.t) (bodies : list Body.t) :
  npow2 dt = Err e ->
  update_positions dt (b :: bodies) = Raised e (b :: bodies).
Proof.
  intros H. unfold update_positions, bind, gets, range. simpl.
  unfold bind, update_at. simpl. unfold advance. rewrite H. reflexivity.
Qed.

Lemma update_positions_done {L : Libm} (dt : num) (bodies bodies2 : list Body.t) :
  update_positions dt bodies = Done tt bodies2 ->
  (bodies = [] /\ bodies2 = []) \/
  exists dt2, npow2 dt = Ok dt2 /\ bodies2 = map (verlet dt2) bodies.
Proof.
  intros Hrun. destruct (npow2 dt) as [dt2|e] eqn:Hdt.
  - right. exists dt2. split; [reflexivity|].
    rewrite (update_positions_map dt dt2 bodies Hdt) in Hrun.
    inversion Hrun. reflexivity.
  - destruct bodies as [|b bodies].
    + left. split; [reflexivity|]. inversion Hrun. reflexivity.
    + rewrite (update_positions_overflow dt e b bodies Hdt) in Hrun. discriminate.
Qed.

Lemma compute_forces_done {L : Libm} (bodies bodies1 : list Body.t) :
  compute_forces bodies = Done tt bodies1 ->
  (forall i j bi bj, i < j -> bodies !! i = Some bi -> bodies !! j = Some bj ->
                     exists f, pair_force bi bj = Ok f) /\
  bodies1 = accelerated bodies.
Proof.
  intros Hrun.
  assert (Hin : forall i j, In (i, j) (pairs (length bodies)) -> i < j < length bodies).
  { intros i j H. apply in_pairs. exact H. }
  destruct (forces_all_or_one bodies (pairs (length bodies)) Hin) as [Hall|Hone].
  - assert (Hok : forall i j bi bj, i < j -> bodies !! i = Some bi ->
                    bodies !! j = Some bj -> exists f, pair_force bi bj = Ok f).
    { intros i j bi bj Hij Hi Hj. apply (Hall i j); [|assumption..].
      apply in_pairs. split; [exact Hij|]. apply lookup_lt_is_Some. eauto. }
    split; [exact Hok|].
    rewrite (compute_forces_accelerated bodies Hok) in Hrun. inversion Hrun. reflexivity.
  - destruct (interact_stops bodies (pairs (length bodies)) [] Hin Hone)
      as (e & s & Hstop & _).
    rewrite compute_forces_loop, Hstop in Hrun. discriminate.
Qed.

(** After a completed step of a system of two bodies or more, every
    position is held in numpy scalars (the force of line 40 is one, through
    [np.sqrt]); and positions in numpy scalars stay so under
    [update_positions]. *)
Theorem positions_turn_numpy {L : Libm} (dt : num) (bodies bodies1 bodies2 : list Body.t) :
  2 <= length bodies ->
  compute_forces bodies = Done tt bodies1 ->
  update_positions dt bodies1 = Done tt bodies2 ->
  Forall np_position bodies2 /\
  (forall (dt' : num) (bodies3 : list Body.t),
     update_positions dt' bodies2 = Done tt bodies3 -> Forall np_position bodies3).
Proof.
  intros Hlen Hf Hp.
  destruct (compute_forces_done _ _ Hf) as [Hok ->].
  assert (Hacc := accelerated_np bodies Hlen Hok).
  assert (Hmap : forall d l l', Forall (fun b => np_acceleration b \/ np_position b) l ->
                   update_positions d l = Done tt l' -> Forall np_position l').
  { intros d l l' Hl Hrun.
    destruct (update_positions_done _ _ _ Hrun) as [[_ ->]|(d2 & _ & ->)];
      [constructor|].
    apply Forall_fmap. eapply Forall_impl; [exact Hl|].
    intros b Hb. apply verlet_np, Hb. }
  split.
  - eapply Hmap; [|exact Hp]. eapply Forall_impl; [exact Hacc|]. intros b Hb. left. exact Hb.
  - intros dt' bodies3 Hrun. eapply Hmap; [|exact Hrun].
    eapply Forall_impl.
    + eapply Hmap; [|exact Hp]. eapply Forall_impl; [exact Hacc|].
      intros b Hb. left. exact Hb.
    + intros b Hb. right. exact Hb.
Qed.

Lemma positions_turn_numpy_witness :
  exists bodies1 bodies2 : list Body.t,
    (2 <= length binary /\ compute_forces binary = Done tt bodies1 /\
     update_positions DT bodies1 = Done tt bodies2) /\
    Forall np_position bodies2.
Proof.
  let o1 := eval vm_compute in (compute_forces binary) in
  match o1 with
  | Done _ ?b1 =>
      let o2 := eval vm_compute in (update_positions DT b1) in
      match o2 with
      | Done _ ?b2 =>
          exists b1, b2;
          assert (Hhyp : 2 <= length binary /\ compute_forces binary = Done tt b1 /\
                         update_positions DT b1 = Done tt b2)
            by (split; [simpl; lia|split; vm_compute; reflexivity]);
          split; [exact Hhyp|];
          destruct Hhyp as (Hl & Hf & Hp);
          exact (proj1 (positions_turn_numpy DT binary b1 b2 Hl Hf Hp))
      end
  end.
Defined.

(** ** update_positions at its edges *)

(** When the square of the time step overflows (a Python float beyond
    about 1.3e154), [update_positions] does nothing on the empty list and
    raises OverflowError on any other, before anything is written. *)
Theorem update_positions_overflowing_step {L : Libm} (dt : num) (e : exn) :
  npow2 dt = Err e ->
  e = OverflowError /\
  update_positions dt [] = Done tt [] /\
  (forall (b : Body.t) (bodies : list Body.t),
     update_positions dt (b :: bodies) = Raised e (b :: bodies)).
Proof.
  intros H. split; [eapply npow2_error, H|]. split; [reflexivity|].
  intros b bodies. apply update_positions_overflow, H.
Qed.

Lemma update_positions_overflowing_step_witness :
  npow2 (PyFloat 1e200) = Err OverflowError /\
  update_positions (PyFloat 1e200) binary = Raised OverflowError binary.
Proof.
  split; [reflexivity|].
  exact (proj2 (proj2 (update_positions_overflowing_step (PyFloat 1e200) OverflowError
                         eq_refl)) _ _).
Defined.

(** ** The step and the buttons *)

(** When the force computation raises, the step stops there: the exception
    leaves [run_simulation], no position is integrated, no sample is
    recorded and nothing is drawn; only accelerations may have been
    written. *)
Theorem step_stops_at_force_error {L : Libm} (E : Env) (self : App.t) (e : exn)
    (bodies1 : list Body.t) :
  App.is_running self = true ->
  compute_forces (App.bodies self) = Raised e bodies1 ->
  run_simulation E self = Raised e (App.set_bodies bodies1 self) /\
  Forall2 same_but_acceleration (App.bodies self) bodies1 /\
  App.trails (App.set_bodies bodies1 self) = App.trails self.
Proof.
  intros Hrun Hf. split; [apply run_simulation_aborts; assumption|].
  split; [|reflexivity].
  pose proof (compute_forces_frame (App.bodies self)) as H. rewrite Hf in H. exact H.
Qed.

Lemma step_stops_at_force_error_witness :
  exists bodies1 : list Body.t,
    (App.is_running stalled = true /\
     compute_forces (App.bodies stalled) = Raised ZeroDivisionError bodies1) /\
    run_simulation desk stalled = Raised ZeroDivisionError (App.set_bodies bodies1 stalled).
Proof.
  let o := eval vm_compute in (compute_forces (App.bodies stalled)) in
  match o with
  | Raised _ ?b1 =>
      exists b1;
      assert (Hhyp : App.is_running stalled = true /\
                     compute_forces (App.bodies stalled) = Raised ZeroDivisionError b1)
        by (split; vm_compute; reflexivity);
      split; [exact Hhyp|];
      destruct Hhyp as [Hr Hf];
      exact (proj1 (step_stops_at_force_error desk stalled ZeroDivisionError b1 Hr Hf))
  end.
Defined.

Lemma run_simulation_paused {L : Libm} (E : Env) (self : App.t) :
  App.is_running self = false -> run_simulation E self = Done tt self.
Proof. intros H. unfold run_simulation, bind, gets. rewrite H. reflexivity. Qed.

(** Pausing freezes the window: the click on the button of a running
    window performs no step and only clears [is_running], and the timer
    events that are still pending then change nothing. *)
Theorem pause_freezes {L : Libm} (E : Env) (self : App.t) (n : nat) :
  App.is_running self = true ->
  run E (ClickToggle :: repeat Timer n) self = App.set_is_running false self.
Proof.
  intros Hrun. simpl.
  assert (Hoff : react E self ClickToggle = App.set_is_running false self).
  { unfold react, handle, toggle_simulation, bind, modify, gets. simpl.
    rewrite Hrun. reflexivity. }
  rewrite Hoff.
  assert (Htick : react E (App.set_is_running false self) Timer
                  = App.set_is_running false self).
  { unfold react, handle. rewrite run_simulation_paused by reflexivity. reflexivity. }
  induction n as [|n IH]; simpl; [reflexivity|]. rewrite Htick. exact IH.
Qed.

Lemma pause_freezes_witness :
  App.is_running (run desk [ClickToggle] (init desk)) = true /\
  run desk (ClickToggle :: repeat Timer 3) (run desk [ClickToggle] (init desk))
  = App.set_is_running false (run desk [ClickToggle] (init desk)).
Proof.
  split; [vm_compute; reflexivity|].
  apply (pause_freezes desk (run desk [ClickToggle] (init desk)) 3).
  vm_compute. reflexivity.
Defined.

(** ** Which callback writes which field *)

#[local] Instance same_settings_refl : Reflexive same_settings.
Proof. intros s. unfold same_settings. tauto. Qed.

#[local] Instance same_settings_trans : Transitive same_settings.
Proof. unfold same_settings. intros s1 s2 s3 H12 H23. intuition congruence. Qed.

Lemma run_simulation_settings {L : Libm} (E : Env) : preserves same_settings (run_simulation E).
Proof.
  apply preserves_run_simulation; try apply _.
  - intros P self bodies' _ _. unfold same_settings. simpl. tauto.
  - intros self i d. unfold same_settings. simpl. tauto.
Qed.

Lemma load_selected_preset_settings (E : Env) (self : App.t) :
  App.is_running (state_of (load_selected_preset E self)) = App.is_running self /\
  App.trail_length (state_of (load_selected_preset E self)) = App.trail_length self /\
  App.dt (state_of (load_selected_preset E self)) = App.dt self /\
  App.preset_var (state_of (load_selected_preset E self)) =
    (if String.eqb (App.preset_var self) "" then "Sistema Solar"%string
     else App.preset_var self).
Proof.
  pose proof (load_selected_preset_run E self) as Hrun. cbv zeta in Hrun.
  destruct (dict_get presets _) as [preset|e]; rewrite Hrun; simpl; tauto.
Qed.

(** Each field of the window other than the collections has its own
    writers: [dt] is written by the time-step slider only, [trail_length]
    by the trail slider only (with what [int] makes of its text, when it
    raises nothing), [is_running] by the start/pause and reset
    buttons only, and the selection by the combobox, or by a load that finds
    it empty and makes it "Sistema Solar". *)
Theorem settings_writers {L : Libm} (E : Env) (self : App.t) (ev : event) :
  (App.dt (react E self ev) = App.dt self \/
   exists days, ev = SlideDt days /\
                App.dt (react E self ev) = nmul days (PyFloat 86400)) /\
  (App.trail_length (react E self ev) = App.trail_length self \/
   exists v n, ev = SlideTrail v /\ py_int E v = Ok n /\
               App.trail_length (react E self ev) = n) /\
  (App.is_running (react E self ev) = App.is_running self \/
   (ev = ClickToggle /\
    App.is_running (react E self ev) = negb (App.is_running self)) \/
   (ev = ClickReset /\ App.is_running (react E self ev) = false)) /\
  (App.preset_var (react E self ev) = App.preset_var self \/
   (exists name, ev = SelectPreset name /\ App.preset_var (react E self ev) = name) \/
   ((ev = ClickLoad \/ ev = ClickReset) /\ App.preset_var self = ""%string /\
    App.preset_var (react E self ev) = "Sistema Solar"%string)).
Proof.
  destruct ev as [|name| |days|v| | |entries]; unfold react, handle.
  - destruct (run_simulation_settings E self) as (H1 & H2 & H3 & H4). tauto.
  - simpl. repeat split; try (left; reflexivity). right. left. eauto.
  - destruct (load_selected_preset_settings E self) as (H1 & H2 & H3 & H4).
    rewrite H1, H2, H3, H4.
    destruct (String.eqb (App.preset_var self) "") eqn:Hvar.
    + apply String.eqb_eq in Hvar. repeat split; try (left; reflexivity).
      right. right. auto.
    + repeat split; left; reflexivity.
  - simpl. repeat split; try (left; reflexivity). right. eauto.
  - unfold set_trail_length, bind, lift, modify.
    destruct (py_int E v) as [n|e] eqn:Hv; simpl.
    + repeat split; try (left; reflexivity). right. eauto.
    + repeat split; left; reflexivity.
  - unfold toggle_simulation, bind, modify, gets.
    destruct (App.is_running (App.set_is_running (negb (App.is_running self)) self))
      eqn:Hrun.
    + destruct (run_simulation_settings E
                  (App.set_is_running (negb (App.is_running self)) self))
        as (H1 & H2 & H3 & H4).
      rewrite H1, H2, H3, H4. simpl. repeat split; try (left; reflexivity).
      right. left. auto.
    + simpl. repeat split; try (left; reflexivity). right. left. auto.
  - unfold reset_simulation, bind, modify.
    destruct (load_selected_preset_settings E (App.set_is_running false self))
      as (H1 & H2 & H3 & H4).
    rewrite H2, H3, H4, H1. simpl.
    destruct (String.eqb (App.preset_var self) "") eqn:Hvar.
    + apply String.eqb_eq in Hvar. repeat split; try (left; reflexivity); right; right; auto.
    + repeat split; try (left; reflexivity). right. right. auto.
  - unfold bind.
    pose proof (validate_new_body_run E entries self) as Hrun.
    destruct (parse_entries E entries) as [[[[[mass x] y] vx] vy]|e].
    + destruct Hrun as [shown ->]. simpl. repeat split; left; reflexivity.
    + rewrite Hrun. simpl. repeat split; left; reflexivity.
Qed.

(** ** Bodies stay until a preset is loaded *)

#[local] Instance grows_refl : Reflexive grows.
Proof. intros s i b Hb. exists b. split; [exact Hb|reflexivity]. Qed.

#[local] Instance grows_trans : Transitive grows.
Proof.
  intros s1 s2 s3 H12 H23 i b Hb.
  destruct (H12 i b Hb) as (b2 & Hb2 & Hid2).
  destruct (H23 i b2 Hb2) as (b3 & Hb3 & Hid3).
  exists b3. split; [exact Hb3|]. etransitivity; eassumption.
Qed.

Lemma handle_grows {L : Libm} (E : Env) (ev : event) :
  keeps_list ev = true -> preserves grows (handle E ev).
Proof.
  intros Hev. destruct (keeps_bodies ev) eqn:Hquiet.
  - apply preserves_quiet_event; try apply _; try exact Hquiet;
      try (intros self v i b Hb; exists b; split; [exact Hb|reflexivity]);
      try (intros self k d i b Hb; exists b; split; [exact Hb|reflexivity]).
    intros P self bodies' HP Hall i b Hb. simpl.
    destruct (Forall2_lookup_l _ _ _ _ _ Hall Hb) as (b' & Hb' & HPb).
    exists b'. split; [exact Hb'|apply HP, HPb].
  - destruct ev; try discriminate. simpl. intros self. unfold bind.
    pose proof (validate_new_body_run E entries self) as Hrun.
    destruct (parse_entries E entries) as [[[[[mass x] y] vx] vy]|e].
    + destruct Hrun as [shown ->]. simpl. intros i b Hb. exists b.
      split; [apply lookup_app_l_Some, Hb|reflexivity].
    + rewrite Hrun. simpl. reflexivity.
Qed.

(** Over any sequence of events without a preset load or a reset (steps,
    sliders, pauses and added bodies), every body stays in the list at its
    index with its mass, vx, vy and color: no callback removes or reorders
    bodies, and adding a body leaves the others as they are. *)
Theorem bodies_persist {L : Libm} (E : Env) (evs : list event) (self : App.t) :
  Forall (fun ev => keeps_list ev = true) evs ->
  (forall (i : nat) (b : Body.t), App.bodies self !! i = Some b ->
     exists b', App.bodies (run E evs self) !! i = Some b' /\ same_identity b b') /\
  length (App.bodies self) <= length (App.bodies (run E evs self)).
Proof.
  intros Hevs.
  assert (Hgrows : grows self (run E evs self)).
  { revert self. induction Hevs as [|ev evs Hev _ IH]; intros self; simpl.
    - reflexivity.
    - etransitivity; [|apply IH]. apply handle_grows. exact Hev. }
  split; [exact Hgrows|].
  destruct (Nat.le_gt_cases (length (App.bodies self))
                            (length (App.bodies (run E evs self)))) as [Hle|Hlt];
    [exact Hle|].
  destruct (lookup_lt_is_Some_2 (App.bodies self) _ Hlt) as [b Hb].
  destruct (Hgrows _ b Hb) as (b' & Hb' & _).
  apply lookup_lt_Some in Hb'. lia.
Qed.

Lemma bodies_persist_witness :
  Forall (fun ev => keeps_list ev = true)
         [ClickToggle; SubmitBody moving_entries; Timer] /\
  length (App.bodies (init desk)) <=
  length (App.bodies (run desk [ClickToggle; SubmitBody moving_entries; Timer] (init desk))).
Proof.
  split; [repeat constructor|].
  apply (bodies_persist desk [ClickToggle; SubmitBody moving_entries; Timer] (init desk)).
  repeat constructor.
Defined.

(** ** More on the trails *)

(** A deque of capacity [m], recorded into from empty with the trail length
    held at [limit], holds exactly the last min(limit, m) samples: a trail
    length lowered before the first step takes effect, a raised one does not
    (the capacity the deque was created with still binds). *)
Theorem trail_holds_last_samples (limit m : nat) (samples : list sample) :
  deque.items (records limit samples (deque.new m)) =
    drop (length samples - Nat.min limit m) samples /\
  deque.len (records limit samples (deque.new m)) =
    Nat.min (length samples) (Nat.min limit m) /\
  deque.maxlen (records limit samples (deque.new m)) = m.
Proof.
  destruct (records_from_empty limit m samples) as [Hi Hm].
  split; [exact Hi|]. split; [|exact Hm].
  unfold deque.len. rewrite Hi, length_drop. lia.
Qed.

(** With a positive trail length and a positive capacity, the sample just
    recorded is the last item of the deque; with capacity zero or trail
    length zero an empty deque stays empty: nothing is recorded. *)
Theorem newest_sample_last (limit : nat) (s : sample) (d : deque.t) :
  0 < limit -> 0 < deque.maxlen d ->
  last (deque.items (trail_record limit s d)) = Some s /\
  deque.items (trail_record limit s (deque.new 0)) = [] /\
  deque.items (trail_record 0 s (deque.new (deque.maxlen d))) = [].
Proof.
  intros Hlimit Hcap.
  assert (Htail : forall l : list sample, 2 <= length (l ++ [s]) ->
                                          last (tail (l ++ [s])) = Some s).
  { intros [|a l] Hl; simpl in *; [lia|]. apply last_snoc. }
  split; [|split].
  - destruct (trail_record_items limit s d) as [_ ->].
    destruct (deque.maxlen d <? length (deque.items d ++ [s])) eqn:H1.
    + apply Nat.ltb_lt in H1.
      destruct (deque.items d) as [|a l] eqn:Hd; [simpl in H1; lia|].
      change (tail ((a :: l) ++ [s])) with (l ++ [s]).
      destruct (limit <? length (l ++ [s])) eqn:H2.
      * apply Nat.ltb_lt in H2. apply Htail. lia.
      * apply last_snoc.
    + destruct (limit <? length (deque.items d ++ [s])) eqn:H2.
      * apply Nat.ltb_lt in H2. apply Htail. lia.
      * apply last_snoc.
  - reflexivity.
  - unfold trail_record, deque.append, deque.len. simpl.
    destruct (deque.maxlen d) as [|k]; reflexivity.
Qed.

Lemma newest_sample_last_witness :
  0 < 100 /\ 0 < deque.maxlen (deque.new 100) /\
  last (deque.items (trail_record 100 (PyFloat 1, PyFloat 2) (deque.new 100)))
  = Some (PyFloat 1, PyFloat 2).
Proof.
  split; [lia|]. split; [simpl; lia|].
  apply (newest_sample_last 100 (PyFloat 1, PyFloat 2) (deque.new 100)); simpl; lia.
Defined.




(** ** Loading a preset *)

Lemma dict_get_missing {V : Type} (d : list (string * V)) (key : string) :
  ~ In key (map fst d) -> dict_get d key = Err KeyError.
Proof.
  induction d as [|[k v] d IH]; simpl; intros Hnot; [reflexivity|].
  destruct (String.eqb k key) eqn:Hk.
  - apply String.eqb_eq in Hk. tauto.
  - apply IH. tauto.
Qed.

Lemma dict_get_found {V : Type} (d : list (string * V)) (key : string) (v : V) :
  dict_get d key = Ok v -> In (key, v) d.
Proof.
  induction d as [|[k w] d IH]; simpl; [discriminate|].
  destruct (String.eqb k key) eqn:Hk.
  - apply String.eqb_eq in Hk. intros H. inversion H; subst. left. reflexivity.
  - intros H. right. apply IH, H.
Qed.

Lemma set_preset_var_same (self : App.t) :
  App.set_preset_var (App.preset_var self) self = self.
Proof. destruct self; reflexivity. Qed.

(** A selection that is no key of the dictionary of presets (and is not
    empty) makes the load raise KeyError before anything is written: the
    bodies, the trails and every other field stay as they are. *)
Theorem load_unknown_preset (E : Env) (self : App.t) :
  App.preset_var self <> ""%string ->
  ~ In (App.preset_var self) preset_names ->
  load_selected_preset E self = Raised KeyError self /\
  reset_simulation E self = Raised KeyError (App.set_is_running false self).
Proof.
  intros Hvar Hnot.
  assert (Hload : forall s, App.preset_var s = App.preset_var self ->
                            load_selected_preset E s = Raised KeyError s).
  { intros s Hs. pose proof (load_selected_preset_run E s) as Hrun. cbv zeta in Hrun.
    rewrite Hs in Hrun.
    replace (String.eqb (App.preset_var self) "") with false in Hrun
      by (symmetry; apply String.eqb_neq, Hvar).
    rewrite (dict_get_missing presets _ Hnot) in Hrun.
    rewrite Hrun, <- Hs. rewrite set_preset_var_same. reflexivity. }
  split; [apply Hload; reflexivity|].
  unfold reset_simulation, bind, modify. rewrite Hload; reflexivity.
Qed.

Lemma load_unknown_preset_witness :
  App.preset_var (App.set_preset_var "Marte" (init desk)) <> ""%string /\
  ~ In (App.preset_var (App.set_preset_var "Marte" (init desk))) preset_names /\
  load_selected_preset desk (App.set_preset_var "Marte" (init desk))
  = Raised KeyError (App.set_preset_var "Marte" (init desk)).
Proof.
  assert (H1 : App.preset_var (App.set_preset_var "Marte" (init desk)) <> ""%string)
    by (simpl; discriminate).
  assert (H2 : ~ In (App.preset_var (App.set_preset_var "Marte" (init desk))) preset_names).
  { simpl. intros [H|[H|[H|[]]]]; discriminate. }
  split; [exact H1|]. split; [exact H2|].
  exact (proj1 (load_unknown_preset desk (App.set_preset_var "Marte" (init desk)) H1 H2)).
Defined.

Lemma presets_rebuilt (name : string) (preset : list Body.t) :
  dict_get presets name = Ok preset -> map rebuilt preset = preset.
Proof.
  intros H. apply dict_get_found in H. simpl in H.
  destruct H as [H|[H|[H|[]]]]; inversion H; reflexivity.
Qed.

(** A load with a selection that is a key of the dictionary (the empty
    selection standing for "Sistema Solar") puts the window back on the
    preset whatever happened before: the bodies are those of the preset,
    with their initial positions and zero accelerations, and every trail is
    empty with the current trail length as capacity; the reset does the
    same and pauses the window. *)
Theorem load_restores_preset (E : Env) (self : App.t) (preset : list Body.t) :
  dict_get presets (if String.eqb (App.preset_var self) "" then "Sistema Solar"%string
                    else App.preset_var self) = Ok preset ->
  (App.bodies (state_of (load_selected_preset E self)) = preset /\
   App.trails (state_of (load_selected_preset E self)) =
     map (fun _ => deque.new (App.trail_length self)) preset) /\
  (App.bodies (state_of (reset_simulation E self)) = preset /\
   App.trails (state_of (reset_simulation E self)) =
     map (fun _ => deque.new (App.trail_length self)) preset /\
   App.is_running (state_of (reset_simulation E self)) = false) /\
  Forall (fun b => Body.ax b = PyFloat 0 /\ Body.ay b = PyFloat 0 /\
                   Body.prev_x b = nsub (Body.x b) (nmul (Body.vx b) DT) /\
                   Body.prev_y b = nsub (Body.y b) (nmul (Body.vy b) DT)) preset.
Proof.
  intros Hget.
  assert (Hload : forall s, App.preset_var s = App.preset_var self ->
                            App.trail_length s = App.trail_length self ->
            state_of (load_selected_preset E s) =
            App.set_trails (map (fun _ => deque.new (App.trail_length self)) preset)
              (App.set_bodies preset
                 (App.set_preset_var
                    (if String.eqb (App.preset_var self) "" then "Sistema Solar"%string
                     else App.preset_var self) s))).
  { intros s Hs Hl. pose proof (load_selected_preset_run E s) as Hrun. cbv zeta in Hrun.
    rewrite Hs, Hget, Hl in Hrun. rewrite Hrun.
    rewrite (presets_rebuilt _ _ Hget). reflexivity. }
  split; [|split].
  - rewrite Hload by reflexivity. split; reflexivity.
  - unfold reset_simulation, bind, modify.
    assert (Hstate : state_of
              match load_selected_preset E (App.set_is_running false self) with
              | Done a s' => Done a s'
              | Raised e s' => Raised e s'
              end = state_of (load_selected_preset E (App.set_is_running false self)))
      by (destruct (load_selected_preset E _); reflexivity).
    change (state_of ((fun s => match (fun s0 => Done tt (App.set_is_running false s0)) s with
                                | Done a s' => load_selected_preset E s'
                                | Raised e s' => Raised e s'
                                end) self))
      with (state_of (load_selected_preset E (App.set_is_running false self))).
    rewrite Hload by reflexivity. repeat split; reflexivity.
  - rewrite <- (presets_rebuilt _ _ Hget). apply Forall_fmap.
    apply Forall_forall. intros b _. simpl. repeat split; reflexivity.
Qed.

Lemma load_restores_preset_witness :
  dict_get presets (if String.eqb (App.preset_var hundred_steps) ""
                    then "Sistema Solar"%string
                    else App.preset_var hundred_steps)
    = Ok (App.bodies (init desk)) /\
  App.bodies (state_of (load_selected_preset desk hundred_steps)) = App.bodies (init desk).
Proof.
  assert (H : dict_get presets (if String.eqb (App.preset_var hundred_steps) ""
                                then "Sistema Solar"%string
                                else App.preset_var hundred_steps)
              = Ok (App.bodies (init desk))) by (vm_compute; reflexivity).
  split; [exact H|].
  exact (proj1 (proj1 (load_restores_preset desk hundred_steps (App.bodies (init desk)) H))).
Defined.

(** ** The add-body dialog when the drawing fails *)

(** [update_plot] is called inside the [try] block after the two appends:
    when it raises (a color matplotlib rejects, say), the error box is
    shown although the body and its trail have been added. *)
Theorem failed_drawing_keeps_body (E : Env) (entries : Entries.t) (self : App.t)
    (mass x y vx vy : num) (e : exn) :
  parse_entries E entries = Ok (mass, x, y, vx, vy) ->
  draw E (App.set_trails (App.trails self ++ [deque.new (App.trail_length self)])
            (App.set_bodies
               (App.bodies self ++ [Body.init mass x y vx vy (Entries.cor entries)])
               self)) = Err e ->
  validate_new_body E entries self =
  Done (Some e)
    (App.set_trails (App.trails self ++ [deque.new (App.trail_length self)])
       (App.set_bodies
          (App.bodies self ++ [Body.init mass x y vx vy (Entries.cor entries)])
          self)).
Proof.
  intros Hparse Hdraw.
  unfold validate_new_body, update_plot.
  unfold try_except, bind, lift, modify, gets, ret, id.
  rewrite Hparse.
  match goal with |- context [draw E ?a] =>
    replace (draw E a) with (@Err unit e) by (rewrite <- Hdraw; reflexivity)
  end.
  reflexivity.
Qed.

Lemma failed_drawing_keeps_body_witness :
  parse_entries stubborn default_entries
    = Ok (PyFloat 1e24, PyFloat 0, PyFloat 0, PyFloat 0, PyFloat 0) /\
  exists self',
    validate_new_body stubborn default_entries fresh = Done (Some ValueError) self' /\
    length (App.bodies self') = 1 /\ length (App.trails self') = 1.
Proof.
  split; [reflexivity|]. eexists. split.
  - apply (failed_drawing_keeps_body stubborn default_entries fresh
             (PyFloat 1e24) (PyFloat 0) (PyFloat 0) (PyFloat 0) (PyFloat 0) ValueError);
      reflexivity.
  - split; reflexivity.
Defined.

(** ** Once the positions are numpy scalars, no step raises in the forces *)

#[local] Instance keeps_np_refl : Reflexive keeps_np.
Proof. intros b H. exact H. Qed.

#[local] Instance keeps_np_trans : Transitive keeps_np.
Proof. intros b1 b2 b3 H12 H23 H. auto. Qed.

#[local] Instance keeps_warm_refl : Reflexive keeps_warm.
Proof. intros s H. exact H. Qed.

#[local] Instance keeps_warm_trans : Transitive keeps_warm.
Proof. intros s1 s2 s3 H12 H23 H. auto. Qed.

#[local] Instance same_bodies_refl : Reflexive same_bodies.
Proof. intros s. reflexivity. Qed.

#[local] Instance same_bodies_trans : Transitive same_bodies.
Proof. unfold same_bodies. intros s1 s2 s3 H12 H23. congruence. Qed.

Lemma advance_keeps_np {L : Libm} (dt : num) (b b' : Body.t) :
  advance dt b = Ok b' -> keeps_np b b'.
Proof.
  intros Hadv Hnp. destruct (npow2 dt) as [dt2|e] eqn:Hdt.
  - rewrite (advance_verlet dt dt2 b Hdt) in Hadv. inversion Hadv; subst.
    apply verlet_np. right. exact Hnp.
  - unfold advance in Hadv. rewrite Hdt in Hadv. discriminate.
Qed.

Lemma Forall2_keeps_np (l l' : list Body.t) :
  Forall2 keeps_np l l' -> Forall np_position l -> Forall np_position l'.
Proof.
  induction 1 as [|b b' l l' Hb _ IH]; intros Hl; [constructor|].
  inversion Hl; subst. constructor; auto.
Qed.

Lemma same_positions_np (l l' : list Body.t) :
  Forall2 same_but_acceleration l l' -> Forall np_position l -> Forall np_position l'.
Proof.
  intros H. apply Forall2_keeps_np. eapply Forall2_impl; [exact H|].
  intros b b' (_ & Hx & Hy & _) [Hnx Hny]. split; congruence.
Qed.

Lemma record_trail_same_bodies (i : nat) : preserves same_bodies (record_trail i).
Proof.
  intros self. unfold same_bodies, record_trail, bind, on_bodies, body_at, trail_at,
    lift, store_trail, modify, gets.
  repeat match goal with
  | |- context [match ?x with _ => _ end] =>
      lazymatch x with
      | context [match _ with _ => _ end] => fail
      | _ => destruct x eqn:?
      end; cbn [state_of App.bodies App.trails App.trail_length App.set_bodies
                App.set_trails]
  end; try reflexivity.
Qed.

Lemma run_simulation_warm {L : Libm} (E : Env) : preserves keeps_warm (run_simulation E).
Proof.
  unfold run_simulation. frame_seq; [frame_skip|]. frame_branch; [|frame_skip].
  frame_seq.
  { apply (preserves_on_bodies _ (Forall2 same_but_acceleration)).
    - intros self bodies' H Hwarm. unfold warm in *. simpl.
      eapply same_positions_np; eassumption.
    - apply compute_forces_frame. }
  frame_seq.
  { frame_seq; [frame_skip|].
    apply (preserves_on_bodies _ (Forall2 keeps_np)).
    - intros self bodies' H Hwarm. unfold warm in *. simpl.
      eapply Forall2_keeps_np; eassumption.
    - unfold update_positions. frame_seq; [frame_skip|]. frame_loop.
      apply preserves_update_at; [apply _ | apply advance_keeps_np]. }
  frame_seq.
  { frame_seq; [frame_skip|]. frame_loop.
    intros self Hwarm. unfold warm in *.
    rewrite (record_trail_same_bodies _ self). exact Hwarm. }
  apply preserves_update_plot. apply _.
Qed.

Lemma handle_warm {L : Libm} (E : Env) (ev : event) :
  keeps_bodies ev = true -> preserves keeps_warm (handle E ev).
Proof.
  destruct ev; simpl; intros Hev; try discriminate.
  - apply run_simulation_warm.
  - apply preserves_modify. intros self H. exact H.
  - apply preserves_modify. intros self H. exact H.
  - unfold set_trail_length. frame_seq; [frame_skip|].
    apply preserves_modify. intros self H. exact H.
  - unfold toggle_simulation. frame_seq.
    { apply preserves_modify. intros self H. exact H. }
    frame_seq; [frame_skip|].
    frame_branch; [apply run_simulation_warm|frame_skip].
Qed.

(** From a state where every position is a numpy scalar (any state after a
    completed step of two bodies or more), and as long as no preset is
    loaded and no body added, the positions stay numpy scalars and the
    force computation completes at every later step, bodies at the same
    place included: the ZeroDivisionError of line 39 needs two bodies that
    were never moved. *)
Theorem warm_window_never_raises {L : Libm} (E : Env) (evs : list event) (self : App.t) :
  warm self ->
  Forall (fun ev => keeps_bodies ev = true) evs ->
  warm (run E evs self) /\
  compute_forces (App.bodies (run E evs self))
  = Done tt (accelerated (App.bodies (run E evs self))).
Proof.
  intros Hwarm Hevs.
  assert (Hrun : warm (run E evs self)).
  { revert self Hwarm. induction Hevs as [|ev evs Hev _ IH]; intros self Hwarm; simpl.
    - exact Hwarm.
    - apply IH. unfold react. apply handle_warm; assumption. }
  split; [exact Hrun|].
  apply compute_forces_accelerated. intros i j bi bj Hij Hi Hj.
  apply pair_force_numpy. left.
  unfold warm in Hrun. rewrite Forall_lookup in Hrun. eapply Hrun, Hi.
Qed.

Lemma warm_window_never_raises_witness :
  warm (run desk [ClickToggle] (init desk)) /\
  Forall (fun ev => keeps_bodies ev = true) [Timer; SlideDt (PyFloat 2); Timer] /\
  warm (run desk [Timer; SlideDt (PyFloat 2); Timer] (run desk [ClickToggle] (init desk))).
Proof.
  assert (H1 : warm (run desk [ClickToggle] (init desk))).
  { unfold warm.
    let b := eval vm_compute in (App.bodies (run desk [ClickToggle] (init desk))) in
    change (App.bodies (run desk [ClickToggle] (init desk))) with b.
    repeat constructor. }
  assert (H2 : Forall (fun ev => keeps_bodies ev = true)
                      [Timer; SlideDt (PyFloat 2); Timer]) by (repeat constructor).
  split; [exact H1|]. split; [exact H2|].
  exact (proj1 (warm_window_never_raises desk [Timer; SlideDt (PyFloat 2); Timer]
                  (run desk [ClickToggle] (init desk)) H1 H2)).
Defined.

(** ** What a step can raise *)

Lemma run_simulation_reaches_plot {L : Libm} (E : Env) (self : App.t) (bodies1 bodies2 : list Body.t) :
  App.is_running self = true -> aligned self ->
  compute_forces (App.bodies self) = Done tt bodies1 ->
  update_positions (App.dt self) bodies1 = Done tt bodies2 ->
  run_simulation E self =
  update_plot E
    (App.set_trails
       (zip_with (fun b d => trail_record (App.trail_length self) (trail_sample b) d)
                 bodies2 (App.trails self))
       (App.set_bodies bodies2 self)).
Proof.
  intros Hrun Hal Hf Hp.
  assert (H1 : length bodies1 = length (App.bodies self)).
  { eapply Forall2_same_length; [apply compute_forces_frame|exact Hf]. }
  assert (H2 : length bodies2 = length bodies1).
  { eapply Forall2_same_length; [apply update_positions_frame|exact Hp]. }
  unfold run_simulation, bind, gets. rewrite Hrun.
  rewrite (on_bodies_done _ _ tt bodies1 Hf). cbv beta.
  change (App.dt (App.set_bodies bodies1 self)) with (App.dt self).
  rewrite (on_bodies_done (update_positions _) (App.set_bodies bodies1 self) tt bodies2 Hp).
  unfold range. rewrite Nat.sub_0_r.
  change (App.set_bodies bodies2 (App.set_bodies bodies1 self))
    with (App.set_bodies bodies2 self).
  change (length (App.bodies (App.set_bodies bodies2 self))) with (length bodies2).
  assert (Hloop := record_trails_from bodies2 (App.trails self) [] []
                     (App.set_bodies bodies2 self) eq_refl).
  simpl in Hloop. rewrite Hloop; [ | unfold aligned in Hal; lia | reflexivity | reflexivity ].
  reflexivity.
Qed.

(** With the two collections aligned, an exception that leaves a step was
    raised by the force computation, by the integration or by the drawing:
    the trail loop itself never raises (no IndexError on [self.trails[i]],
    none from [popleft]). *)
Theorem step_failures {L : Libm} (E : Env) (self : App.t) (e : exn) (s : App.t) :
  App.is_running self = true -> aligned self ->
  run_simulation E self = Raised e s ->
  (exists bodies1, compute_forces (App.bodies self) = Raised e bodies1) \/
  (exists bodies1 bodies2,
     compute_forces (App.bodies self) = Done tt bodies1 /\
     update_positions (App.dt self) bodies1 = Raised e bodies2) \/
  (exists drawn, draw E drawn = Err e /\ s = drawn).
Proof.
  intros Hrun Hal Hraised.
  destruct (compute_forces (App.bodies self)) as [[] bodies1|e1 bodies1] eqn:Hf.
  - destruct (update_positions (App.dt self) bodies1) as [[] bodies2|e2 bodies2] eqn:Hp.
    + right. right.
      rewrite (run_simulation_reaches_plot E self bodies1 bodies2 Hrun Hal Hf Hp) in Hraised.
      unfold update_plot, bind, gets, lift, id in Hraised.
      match type of Hraised with context [draw E ?a] =>
        destruct (draw E a) as [[]|e3] eqn:Hdraw; [discriminate|];
        inversion Hraised; subst; exists a; split; [exact Hdraw|reflexivity]
      end.
    + right. left. exists bodies1, bodies2. split; [reflexivity|].
      unfold run_simulation, bind, gets in Hraised. rewrite Hrun in Hraised.
      rewrite (on_bodies_done _ _ tt bodies1 Hf) in Hraised. cbv beta in Hraised.
      change (App.dt (App.set_bodies bodies1 self)) with (App.dt self) in Hraised.
      unfold on_bodies in Hraised.
      change (App.bodies (App.set_bodies bodies1 self)) with bodies1 in Hraised.
      rewrite Hp in Hraised. inversion Hraised; subst. exact Hp.
  - left. exists bodies1.
    rewrite (run_simulation_aborts E self e1 bodies1 Hrun Hf) in Hraised.
    inversion Hraised. reflexivity.
Qed.

Lemma step_failures_witness :
  exists (s : App.t),
    (App.is_running stalled = true /\ aligned stalled /\
     run_simulation desk stalled = Raised ZeroDivisionError s) /\
    ((exists bodies1, compute_forces (App.bodies stalled) = Raised ZeroDivisionError bodies1) \/
     (exists bodies1 bodies2,
        compute_forces (App.bodies stalled) = Done tt bodies1 /\
        update_positions (App.dt stalled) bodies1 = Raised ZeroDivisionError bodies2) \/
     (exists drawn, draw desk drawn = Err ZeroDivisionError /\ s = drawn)).
Proof.
  let o := eval vm_compute in (run_simulation desk stalled) in
  match o with
  | Raised _ ?s1 =>
      exists s1;
      assert (Hhyp : App.is_running stalled = true /\ aligned stalled /\
                     run_simulation desk stalled = Raised ZeroDivisionError s1)
        by (split; [|split]; vm_compute; reflexivity);
      split; [exact Hhyp|];
      destruct Hhyp as (Hr & Ha & Hs);
      exact (step_failures desk stalled ZeroDivisionError s1 Hr Ha Hs)
  end.
Defined.

(** ** The alignment of the two collections as an invariant *)

(** Every callback keeps the trails aligned with the bodies, the step and
    the failing callbacks included, so every state the window reaches from
    [__init__] has one trail per body, whatever [float] and the drawing
    do. *)
Theorem alignment_is_invariant {L : Libm} (E : Env) :
  aligned (init E) /\
  (forall (self : App.t) (ev : event),
     length (App.trails self) = length (App.bodies self) ->
     length (App.trails (react E self ev)) = length (App.bodies (react E self ev))) /\
  (forall evs : list event,
     length (App.trails (run E evs (init E))) = length (App.bodies (run E evs (init E)))).
Proof.
  split; [apply (reachable_aligned E [])|]. split.
  - intros self ev Hal. unfold react. apply handle_aligned. exact Hal.
  - intros evs. apply reachable_aligned.
Qed.
